(** * fsmonitor-settings.c: resolution and caching of the fsmonitor settings

    A shallow embedding of [fsmonitor-settings.c].  Every C function of the
    file is a definition of the same name in a small state-and-error monad
    over the repository the pointer [r] designates and the process-wide
    state (environment, advice and error output).

    Conventions of the embedding:
    - the pointer [r] is taken as already resolved: the [if (!r) r =
      the_repository] prologue of the public functions selects which
      repository the state holds and is not modelled further;
    - [r->settings.fsmonitor] is an [option]: [None] is the NULL pointer,
      and a field access through it is the [Fault] outcome;
    - the functions declared in other files (config store, environment,
      platform probe) are parameters: fields of [config_set] and
      [platform];
    - allocation ([CALLOC_ARRAY], [strdup], [setenv]) does not fail. *)

From Stdlib Require Import ZArith String.
From stdpp Require Import base option list gmap strings.

Local Open Scope Z_scope.
Local Open Scope string_scope.

(** ** Data model *)

Inductive fsmonitor_mode :=
| FSMONITOR_MODE_INCOMPATIBLE
| FSMONITOR_MODE_DISABLED
| FSMONITOR_MODE_HOOK
| FSMONITOR_MODE_IPC.

(** The six enumerators the file names.  A C [enum] object can hold any
    integer of its underlying type; [FSMONITOR_REASON_UNLISTED code] stands
    for a value that is none of the six enumerators (the case the [BUG] call
    after the [switch] of [fsm_settings__error_if_incompatible] handles). *)
Inductive fsmonitor_reason :=
| FSMONITOR_REASON_OK
| FSMONITOR_REASON_BARE
| FSMONITOR_REASON_ERROR
| FSMONITOR_REASON_REMOTE
| FSMONITOR_REASON_VFS4GIT
| FSMONITOR_REASON_NOSOCKETS
| FSMONITOR_REASON_UNLISTED (code : Z).

#[global] Instance fsmonitor_mode_eq_dec : EqDecision fsmonitor_mode.
Proof. solve_decision. Defined.

#[global] Instance fsmonitor_reason_eq_dec : EqDecision fsmonitor_reason.
Proof. solve_decision. Defined.

(** [struct fsmonitor_settings]. *)
Record fsmonitor_settings := mk_settings {
  mode : fsmonitor_mode;
  reason : fsmonitor_reason;
  hook_path : option string
}.

(** The configuration of a repository as the three accessors used by this
    file see it.  Each returns the [int] result of the C call paired with
    what it stores through its out-pointer (read only when the result says
    so). *)
Record config_set := mk_config {
  repo_config_get_maybe_bool : string → Z * Z;
  repo_config_get_bool : string → Z * Z;
  repo_config_get_pathname : string → Z * option string
}.

(** [struct repository], restricted to what the file reads and writes. *)
Record repository := mk_repository {
  worktree : option string;
  config : config_set;
  settings_fsmonitor : option fsmonitor_settings
}.

Inductive advice_type := ADVICE_USE_CORE_FSMONITOR_CONFIG.

(** Process-wide state: the environment, the calls made to
    [advise_if_enabled] and to [error] (format and [%s] argument), and the
    current directory [xgetcwd] reports. *)
Record process := mk_process {
  environ : gmap string string;
  advice_log : list (advice_type * string);
  error_log : list (string * option string);
  cwd : string
}.

(** What the build and the platform fix.  [HAVE_FSMONITOR_OS_SETTINGS] is
    the preprocessor symbol; [fsm_os__incompatible] is the platform probe
    as it answers during one call, by the working directory it inspects
    (what it answers may differ from one call to the next: see [step]
    below); [git_env_bool] is the reader
    of boolean environment variables, defined in another file: a function
    of the variable's name, the default and the environment. *)
Record platform := mk_platform {
  HAVE_FSMONITOR_OS_SETTINGS : bool;
  fsm_os__incompatible : string → fsmonitor_reason;
  git_env_bool : string → Z → gmap string string → Z
}.

Record state := mk_state {
  repo : repository;
  proc : process
}.

(** ** The monad

    A call either returns a value in a new state ([Done]), aborts the
    process through [BUG] with its message and argument ([Bug], in the
    state reached), dereferences a NULL [r->settings.fsmonitor] ([Fault]),
    or exhausts the bound on the call cycle ([OutOfFuel]). *)

Inductive outcome (A : Type) :=
| Done (a : A) (s : state)
| Bug (msg : string) (arg : fsmonitor_reason) (s : state)
| Fault
| OutOfFuel.
Arguments Done {A} a s.
Arguments Bug {A} msg arg s.
Arguments Fault {A}.
Arguments OutOfFuel {A}.

Definition M (A : Type) : Type := state → outcome A.

#[global] Instance M_ret : MRet M := λ A a s, Done a s.

#[global] Instance M_bind : MBind M := λ A B f m s,
  match m s with
  | Done a s' => f a s'
  | Bug msg arg s' => Bug msg arg s'
  | Fault => Fault
  | OutOfFuel => OutOfFuel
  end.

Definition out_of_fuel {A} : M A := λ _, OutOfFuel.
Definition BUG {A} (msg : string) (arg : fsmonitor_reason) : M A :=
  λ st, Bug msg arg st.

Definition with_settings (r : repository) (s : option fsmonitor_settings)
  : repository :=
  mk_repository (worktree r) (config r) s.

Definition with_repo (st : state) (r : repository) : state :=
  mk_state r (proc st).

Definition with_proc (st : state) (p : process) : state :=
  mk_state (repo st) p.

(** Reads of [r->worktree], [r->settings.fsmonitor] and of the fields
    behind the latter. *)
Definition r_worktree : M (option string) :=
  λ st, Done (worktree (repo st)) st.

Definition r_settings_fsmonitor : M (option fsmonitor_settings) :=
  λ st, Done (settings_fsmonitor (repo st)) st.

Definition deref_settings : M fsmonitor_settings :=
  λ st, match settings_fsmonitor (repo st) with
        | Some s => Done s st
        | None => Fault
        end.

(** Writes through [r->settings.fsmonitor]. *)
Definition update_settings (f : fsmonitor_settings → fsmonitor_settings)
  : M unit :=
  λ st, match settings_fsmonitor (repo st) with
        | Some s => Done tt (with_repo st (with_settings (repo st) (Some (f s))))
        | None => Fault
        end.

Definition assign_mode (m : fsmonitor_mode) : M unit :=
  update_settings (λ s, mk_settings m (reason s) (hook_path s)).

Definition assign_reason (why : fsmonitor_reason) : M unit :=
  update_settings (λ s, mk_settings (mode s) why (hook_path s)).

Definition assign_hook_path (p : option string) : M unit :=
  update_settings (λ s, mk_settings (mode s) (reason s) p).

(** [FREE_AND_NULL(r->settings.fsmonitor->hook_path)]. *)
Definition FREE_AND_NULL_hook_path : M unit := assign_hook_path None.

(** [r->settings.fsmonitor = s]. *)
Definition assign_settings_fsmonitor (s : fsmonitor_settings) : M unit :=
  λ st, Done tt (with_repo st (with_settings (repo st) (Some s))).

Definition strdup (p : string) : option string := Some p.

(** The configuration accessors, applied to [r]. *)
Definition config_get_maybe_bool (key : string) : M (Z * Z) :=
  λ st, Done (repo_config_get_maybe_bool (config (repo st)) key) st.

Definition config_get_bool (key : string) : M (Z * Z) :=
  λ st, Done (repo_config_get_bool (config (repo st)) key) st.

Definition config_get_pathname (key : string) : M (Z * option string) :=
  λ st, Done (repo_config_get_pathname (config (repo st)) key) st.

(** The environment. *)
Definition getenv (name : string) : M (option string) :=
  λ st, Done (environ (proc st) !! name) st.

Definition setenv (name value : string) : M unit :=
  λ st, Done tt (with_proc st
    (mk_process (<[name := value]> (environ (proc st)))
                (advice_log (proc st)) (error_log (proc st)) (cwd (proc st)))).

Definition advise_if_enabled (kind : advice_type) (msg : string) : M unit :=
  λ st, Done tt (with_proc st
    (mk_process (environ (proc st)) (advice_log (proc st) ++ [(kind, msg)])
                (error_log (proc st)) (cwd (proc st)))).

Definition error (fmt : string) (arg : option string) : M unit :=
  λ st, Done tt (with_proc st
    (mk_process (environ (proc st)) (advice_log (proc st))
                (error_log (proc st) ++ [(fmt, arg)]) (cwd (proc st)))).

Definition xgetcwd : M string := λ st, Done (cwd (proc st)) st.

(** [git_env_bool(name, def)], read off the current environment. *)
Definition env_bool (pf : platform) (name : string) (def : Z) : M Z :=
  λ st, Done (git_env_bool pf name def (environ (proc st))) st.

(** ** The functions of the file *)

Section Functions.

Variable pf : platform.

Definition set_incompatible (why : fsmonitor_reason) : M unit :=
  assign_mode FSMONITOR_MODE_INCOMPATIBLE;;
  assign_reason why.

Definition check_for_incompatible : M Z :=
  wt ← r_worktree;
  match wt with
  | None =>
      set_incompatible FSMONITOR_REASON_BARE;;
      mret 1
  | Some dir =>
      if HAVE_FSMONITOR_OS_SETTINGS pf then
        let why := fsm_os__incompatible pf dir in
        if decide (why ≠ FSMONITOR_REASON_OK) then
          set_incompatible why;;
          mret 1
        else mret 0
      else mret 0
  end.

(** The file's functions call each other in a cycle:
    [lookup_fsmonitor_settings] calls [fsm_settings__set_ipc] and
    [fsm_settings__set_hook], which start by calling
    [lookup_fsmonitor_settings].  Each body is first written over the
    function it calls ([lookup], [set_ipc], [set_hook]); the knot is tied
    below. *)

Section Bodies.

Variable lookup : M unit.

Definition set_ipc_body : M unit :=
  lookup;;
  incompatible ← check_for_incompatible;
  if decide (incompatible ≠ 0) then mret tt
  else
    assign_mode FSMONITOR_MODE_IPC;;
    FREE_AND_NULL_hook_path.

Definition set_hook_body (path : string) : M unit :=
  lookup;;
  incompatible ← check_for_incompatible;
  if decide (incompatible ≠ 0) then mret tt
  else
    assign_mode FSMONITOR_MODE_HOOK;;
    FREE_AND_NULL_hook_path;;
    assign_hook_path (strdup path).

Definition set_disabled_body : M unit :=
  lookup;;
  assign_mode FSMONITOR_MODE_DISABLED;;
  assign_reason FSMONITOR_REASON_OK;;
  FREE_AND_NULL_hook_path.

Definition get_mode_body : M fsmonitor_mode :=
  lookup;;
  s ← deref_settings;
  mret (mode s).

Definition get_hook_path_body : M (option string) :=
  lookup;;
  s ← deref_settings;
  mret (hook_path s).

Definition get_reason_body : M fsmonitor_reason :=
  lookup;;
  s ← deref_settings;
  mret (reason s).

End Bodies.

Definition deprecation_advice : string :=
  "core.useBuiltinFSMonitor will be deprecated soon; use core.fsmonitor instead".

Definition check_deprecated_builtin_config_body (set_ipc : M unit) : M Z :=
  '(rc, core_use_builtin_fsmonitor) ← config_get_bool "core.useBuiltinFSMonitor";
  if decide (rc = 0) then
    suppress ← env_bool pf "GIT_SUPPRESS_USEBUILTINFSMONITOR_ADVICE" 0;
    (if decide (suppress = 0) then
       advise_if_enabled ADVICE_USE_CORE_FSMONITOR_CONFIG deprecation_advice;;
       setenv "GIT_SUPPRESS_USEBUILTINFSMONITOR_ADVICE" "1"
     else mret tt);;
    if decide (core_use_builtin_fsmonitor ≠ 0) then
      set_ipc;;
      mret 1
    else mret 0
  else mret 0.

(** The statements after the [switch]: [if (!const_str || !*const_str)
    return; fsm_settings__set_hook(r, const_str);]. *)
Definition lookup_hook_tail (set_hook : string → M unit)
    (const_str : option string) : M unit :=
  match const_str with
  | None => mret tt
  | Some path => if decide (path = "") then mret tt else set_hook path
  end.

Definition lookup_body (set_ipc : M unit) (set_hook : string → M unit)
  : M unit :=
  cached ← r_settings_fsmonitor;
  if cached is Some _ then mret tt
  else
    assign_settings_fsmonitor
      (mk_settings FSMONITOR_MODE_DISABLED FSMONITOR_REASON_OK None);;
    '(rc, bool_value) ← config_get_maybe_bool "core.fsmonitor";
    match rc with
    | 0 =>
        if decide (bool_value ≠ 0) then set_ipc else mret tt
    | 1 =>
        handled ← check_deprecated_builtin_config_body set_ipc;
        if decide (handled ≠ 0) then mret tt
        else
          const_str ← getenv "GIT_TEST_FSMONITOR";
          lookup_hook_tail set_hook const_str
    | -1 =>
        handled ← check_deprecated_builtin_config_body set_ipc;
        if decide (handled ≠ 0) then mret tt
        else
          '(failed, const_str) ← config_get_pathname "core.fsmonitor";
          if decide (failed ≠ 0) then mret tt
          else lookup_hook_tail set_hook const_str
    | _ => mret tt
    end.

(** Tying the knot.  [fuel] bounds the depth of the call cycle. *)
Fixpoint lookup_fsmonitor_settings_fuel (fuel : nat) : M unit :=
  match fuel with
  | O => out_of_fuel
  | S n =>
      lookup_body (set_ipc_body (lookup_fsmonitor_settings_fuel n))
                  (set_hook_body (lookup_fsmonitor_settings_fuel n))
  end.

(** Two levels are all the cycle ever uses: the nested call finds
    [r->settings.fsmonitor] set and returns at once (see
    [lookup_fuel_enough] below). *)
Definition call_depth : nat := 2%nat.

Definition lookup_fsmonitor_settings : M unit :=
  lookup_fsmonitor_settings_fuel call_depth.

Definition fsm_settings__get_mode : M fsmonitor_mode :=
  get_mode_body lookup_fsmonitor_settings.

Definition fsm_settings__get_hook_path : M (option string) :=
  get_hook_path_body lookup_fsmonitor_settings.

Definition fsm_settings__set_ipc : M unit :=
  set_ipc_body lookup_fsmonitor_settings.

Definition fsm_settings__set_hook (path : string) : M unit :=
  set_hook_body lookup_fsmonitor_settings path.

Definition fsm_settings__set_disabled : M unit :=
  set_disabled_body lookup_fsmonitor_settings.

Definition fsm_settings__get_reason : M fsmonitor_reason :=
  get_reason_body lookup_fsmonitor_settings.

Definition check_deprecated_builtin_config : M Z :=
  check_deprecated_builtin_config_body fsm_settings__set_ipc.

Definition msg_bare : string :=
  "bare repository '%s' is incompatible with fsmonitor".
Definition msg_error : string :=
  "repository '%s' is incompatible with fsmonitor due to errors".
Definition msg_remote : string :=
  "remote repository '%s' is incompatible with fsmonitor".
Definition msg_vfs4git : string :=
  "virtual repository '%s' is incompatible with fsmonitor".
Definition msg_nosockets : string :=
  "repository '%s' is incompatible with fsmonitor due to lack of Unix sockets".
Definition msg_unhandled : string :=
  "Unhandled case in fsm_settings__error_if_incompatible: '%d'".

Definition fsm_settings__error_if_incompatible : M Z :=
  why ← fsm_settings__get_reason;
  match why with
  | FSMONITOR_REASON_OK => mret 0
  | FSMONITOR_REASON_BARE =>
      dir ← xgetcwd;
      error msg_bare (Some dir);;
      mret 1
  | FSMONITOR_REASON_ERROR =>
      wt ← r_worktree;
      error msg_error wt;;
      mret 1
  | FSMONITOR_REASON_REMOTE =>
      wt ← r_worktree;
      error msg_remote wt;;
      mret 1
  | FSMONITOR_REASON_VFS4GIT =>
      wt ← r_worktree;
      error msg_vfs4git wt;;
      mret 1
  | FSMONITOR_REASON_NOSOCKETS =>
      wt ← r_worktree;
      error msg_nosockets wt;;
      mret 1
  | FSMONITOR_REASON_UNLISTED _ => BUG msg_unhandled why
  end.

End Functions.

Arguments lookup_fsmonitor_settings_fuel : simpl never.

(** ** Observing outcomes *)

Definition returned {A} (o : outcome A) : option A :=
  match o with
  | Done a _ => Some a
  | _ => None
  end.

Definition final_state {A} (o : outcome A) : option state :=
  match o with
  | Done _ st => Some st
  | _ => None
  end.

Definition final_settings {A} (o : outcome A) : option fsmonitor_settings :=
  final_state o ≫= λ st, settings_fsmonitor (repo st).

Definition put_settings (s : fsmonitor_settings) (st : state) : state :=
  with_repo st (with_settings (repo st) (Some s)).

(** ** Summaries used to state the properties

    None of the definitions below is part of the program.  Each summarises
    one piece of its behaviour and is tied to the embedding by a lemma of
    the next part. *)

(** What [check_for_incompatible] decides for a repository: [None] when it
    returns 0, the reason it pins otherwise ([check_for_incompatible_spec]). *)
Definition incompatible_reason (pf : platform) (r : repository)
  : option fsmonitor_reason :=
  match worktree r with
  | None => Some FSMONITOR_REASON_BARE
  | Some dir =>
      if HAVE_FSMONITOR_OS_SETTINGS pf then
        if decide (fsm_os__incompatible pf dir ≠ FSMONITOR_REASON_OK)
        then Some (fsm_os__incompatible pf dir) else None
      else None
  end.

(** The settings [fsm_settings__set_ipc] and [fsm_settings__set_hook] leave
    behind when they start from settings [s] ([set_ipc_cached],
    [set_hook_cached]). *)
Definition settings_ipc (pf : platform) (r : repository)
    (s : fsmonitor_settings) : fsmonitor_settings :=
  match incompatible_reason pf r with
  | Some why => mk_settings FSMONITOR_MODE_INCOMPATIBLE why (hook_path s)
  | None => mk_settings FSMONITOR_MODE_IPC (reason s) None
  end.

Definition settings_hook (pf : platform) (r : repository) (path : string)
    (s : fsmonitor_settings) : fsmonitor_settings :=
  match incompatible_reason pf r with
  | Some why => mk_settings FSMONITOR_MODE_INCOMPATIBLE why (hook_path s)
  | None => mk_settings FSMONITOR_MODE_HOOK (reason s) (Some path)
  end.

Definition settings_default : fsmonitor_settings :=
  mk_settings FSMONITOR_MODE_DISABLED FSMONITOR_REASON_OK None.

(** What the configuration and the environment ask lazy resolution for. *)
Inductive request :=
| Request_none
| Request_ipc
| Request_hook (path : string).

Definition request_of_string (const_str : option string) : request :=
  match const_str with
  | Some path => if decide (path = "") then Request_none else Request_hook path
  | None => Request_none
  end.

Definition alias_requests_ipc (cfg : config_set) : bool :=
  bool_decide ((repo_config_get_bool cfg "core.useBuiltinFSMonitor").1 = 0
               ∧ (repo_config_get_bool cfg "core.useBuiltinFSMonitor").2 ≠ 0).

Definition requested (st : state) : request :=
  let cfg := config (repo st) in
  match (repo_config_get_maybe_bool cfg "core.fsmonitor").1 with
  | 0 =>
      if decide ((repo_config_get_maybe_bool cfg "core.fsmonitor").2 ≠ 0)
      then Request_ipc else Request_none
  | 1 =>
      if alias_requests_ipc cfg then Request_ipc
      else request_of_string (environ (proc st) !! "GIT_TEST_FSMONITOR")
  | -1 =>
      if alias_requests_ipc cfg then Request_ipc
      else if decide ((repo_config_get_pathname cfg "core.fsmonitor").1 ≠ 0)
           then Request_none
           else request_of_string
                  (repo_config_get_pathname cfg "core.fsmonitor").2
  | _ => Request_none
  end.

Definition settle (pf : platform) (r : repository) (req : request)
  : fsmonitor_settings :=
  match req with
  | Request_none => settings_default
  | Request_ipc => settings_ipc pf r settings_default
  | Request_hook path => settings_hook pf r path settings_default
  end.

Definition suppress_var : string := "GIT_SUPPRESS_USEBUILTINFSMONITOR_ADVICE".

Definition alias_consulted (cfg : config_set) : bool :=
  bool_decide ((repo_config_get_maybe_bool cfg "core.fsmonitor").1 = 1
               ∨ (repo_config_get_maybe_bool cfg "core.fsmonitor").1 = -1).

Definition alias_advises (pf : platform) (st : state) : bool :=
  bool_decide ((repo_config_get_bool (config (repo st))
                  "core.useBuiltinFSMonitor").1 = 0)
  && bool_decide (git_env_bool pf suppress_var 0 (environ (proc st)) = 0).

Definition advises (pf : platform) (st : state) : bool :=
  alias_consulted (config (repo st)) && alias_advises pf st.

Definition the_advice : advice_type * string :=
  (ADVICE_USE_CORE_FSMONITOR_CONFIG, deprecation_advice).

Definition advised (p : process) : process :=
  mk_process (<[suppress_var := "1"]> (environ p))
             (advice_log p ++ [the_advice]) (error_log p) (cwd p).

(** The state lazy resolution leaves when it starts from a repository whose
    settings are not populated yet ([lookup_fresh]). *)
Definition resolved (pf : platform) (st : state) : state :=
  mk_state (with_settings (repo st) (Some (settle pf (repo st) (requested st))))
           (if advises pf st then advised (proc st) else proc st).

(** ** Sequences of calls *)

Inductive call :=
| Call_get_mode
| Call_get_hook_path
| Call_get_reason
| Call_set_ipc
| Call_set_hook (path : string)
| Call_set_disabled
| Call_error_if_incompatible
| Call_check_for_incompatible.

#[global] Instance call_eq_dec : EqDecision call.
Proof. solve_decision. Defined.

Definition run_call (pf : platform) (c : call) : M unit :=
  match c with
  | Call_get_mode => fsm_settings__get_mode pf;; mret tt
  | Call_get_hook_path => fsm_settings__get_hook_path pf;; mret tt
  | Call_get_reason => fsm_settings__get_reason pf;; mret tt
  | Call_set_ipc => fsm_settings__set_ipc pf
  | Call_set_hook path => fsm_settings__set_hook pf path
  | Call_set_disabled => fsm_settings__set_disabled pf
  | Call_error_if_incompatible => fsm_settings__error_if_incompatible pf;; mret tt
  | Call_check_for_incompatible => check_for_incompatible pf;; mret tt
  end.

Fixpoint run_calls (pf : platform) (cs : list call) : M unit :=
  match cs with
  | [] => mret tt
  | c :: cs' => run_call pf c;; run_calls pf cs'
  end.

(** [check_for_incompatible] is [static]: code outside the file reaches it
    only through the other functions. *)
Definition exported (c : call) : Prop :=
  c ≠ Call_check_for_incompatible.

Definition hook_path_ok (P : string → Prop) (c : call) : Prop :=
  match c with
  | Call_set_hook path => P path
  | _ => True
  end.

(** Several repositories in one process: every call names the repository it
    is made on by its position; the environment and the output are shared.
    A call that aborts ends the run. *)
Record session := mk_session {
  repositories : list repository;
  shared : process
}.

Fixpoint run_session (pf : platform) (sched : list (nat * call))
    (ss : session) : session :=
  match sched with
  | [] => ss
  | (i, c) :: rest =>
      match repositories ss !! i with
      | None => run_session pf rest ss
      | Some r =>
          match run_call pf c (mk_state r (shared ss)) with
          | Done _ st' =>
              run_session pf rest
                (mk_session (<[i := repo st']> (repositories ss)) (proc st'))
          | Bug _ _ st' =>
              mk_session (<[i := repo st']> (repositories ss)) (proc st')
          | Fault | OutOfFuel => ss
          end
      end
  end.

(** ** The cached settings under one answer of the check

    [settled P pf r s]: the settings [s] agree with what the incompatibility
    check decides for [r] under [pf], and the hook path is present exactly
    in mode Hook, where it satisfies [P].  This is kept by the calls of a
    run throughout which the check answers the same; [coherent] below is
    what remains when the answer changes between calls. *)
Definition settled (P : string → Prop) (pf : platform) (r : repository)
    (s : fsmonitor_settings) : Prop :=
  match incompatible_reason pf r with
  | None =>
      reason s = FSMONITOR_REASON_OK
      ∧ match mode s with
        | FSMONITOR_MODE_HOOK => ∃ path, hook_path s = Some path ∧ P path
        | FSMONITOR_MODE_INCOMPATIBLE => False
        | _ => hook_path s = None
        end
  | Some why =>
      hook_path s = None
      ∧ (mode s = FSMONITOR_MODE_DISABLED ∧ reason s = FSMONITOR_REASON_OK
         ∨ mode s = FSMONITOR_MODE_INCOMPATIBLE ∧ reason s = why)
  end.

Definition invariant (P : string → Prop) (pf : platform) (st : state) : Prop :=
  match settings_fsmonitor (repo st) with
  | Some s => settled P pf (repo st) s
  | None => True
  end.

(** The settings a call works on once its leading
    [lookup_fsmonitor_settings] has run, and the state it works in. *)
Definition cached (pf : platform) (st : state) : fsmonitor_settings :=
  match settings_fsmonitor (repo st) with
  | Some s => s
  | None => settle pf (repo st) (requested st)
  end.

Definition ready (pf : platform) (st : state) : state :=
  match settings_fsmonitor (repo st) with
  | Some _ => st
  | None => resolved pf st
  end.

(** The settings a call leaves, from the settings [s] it works on. *)
Definition settings_after (pf : platform) (r : repository) (c : call)
    (s : fsmonitor_settings) : fsmonitor_settings :=
  match c with
  | Call_set_ipc => settings_ipc pf r s
  | Call_set_hook path => settings_hook pf r path s
  | Call_set_disabled => settings_default
  | Call_check_for_incompatible =>
      match incompatible_reason pf r with
      | Some why => mk_settings FSMONITOR_MODE_INCOMPATIBLE why (hook_path s)
      | None => s
      end
  | _ => s
  end.

(** How one call may change the environment and the advice output: not at
    all, or by one advisory together with the suppression variable. *)
Definition advice_step (pf : platform) (p p' : process) : Prop :=
  environ p' = environ p ∧ advice_log p' = advice_log p
  ∨ git_env_bool pf suppress_var 0 (environ p) = 0
    ∧ environ p' = <[suppress_var := "1"]> (environ p)
    ∧ advice_log p' = (advice_log p ++ [the_advice])%list.

(** The [error] call of [fsm_settings__error_if_incompatible] for each
    reason of the [switch], if any. *)
Definition error_report (st : state) (why : fsmonitor_reason)
  : option (string * option string) :=
  match why with
  | FSMONITOR_REASON_BARE => Some (msg_bare, Some (cwd (proc st)))
  | FSMONITOR_REASON_ERROR => Some (msg_error, worktree (repo st))
  | FSMONITOR_REASON_REMOTE => Some (msg_remote, worktree (repo st))
  | FSMONITOR_REASON_VFS4GIT => Some (msg_vfs4git, worktree (repo st))
  | FSMONITOR_REASON_NOSOCKETS => Some (msg_nosockets, worktree (repo st))
  | _ => None
  end.

Definition with_error (st : state) (e : string * option string) : state :=
  with_proc st (mk_process (environ (proc st)) (advice_log (proc st))
                           (error_log (proc st) ++ [e]) (cwd (proc st))).

(** A context passes the incompatibility check when
    [check_for_incompatible] returns 0 on it. *)
Definition passes_check (pf : platform) (st : state) : Prop :=
  returned (check_for_incompatible pf st) = Some 0.

(** ** Sample platforms, configurations and contexts *)

(** A build without [HAVE_FSMONITOR_OS_SETTINGS], whose reader of boolean
    environment variables takes [1], [true], [yes] and [on] for true. *)
Definition sample_env_bool (name : string) (def : Z)
    (env : gmap string string) : Z :=
  match env !! name with
  | Some v => if bool_decide (v ∈ ["1"; "true"; "yes"; "on"]) then 1 else 0
  | None => def
  end.

Definition plain_platform : platform :=
  mk_platform false (λ _, FSMONITOR_REASON_OK) sample_env_bool.

(** A build with the platform probe, which rejects one remote mount. *)
Definition probing_platform : platform :=
  mk_platform true
    (λ dir, if decide (dir = "/mnt/remote") then FSMONITOR_REASON_REMOTE
            else FSMONITOR_REASON_OK)
    sample_env_bool.

(** A configuration given by the answers for [core.fsmonitor] (as a
    maybe-bool and as a pathname) and for [core.useBuiltinFSMonitor]; every
    other key is unset. *)
Definition config_of (primary : Z * Z) (alias : Z * Z)
    (pathname : Z * option string) : config_set :=
  mk_config
    (λ key, if decide (key = "core.fsmonitor") then primary else (1, 0))
    (λ key, if decide (key = "core.useBuiltinFSMonitor") then alias else (1, 0))
    (λ key, if decide (key = "core.fsmonitor") then pathname else (1, None)).

Definition config_empty : config_set := config_of (1, 0) (1, 0) (1, None).

Definition process_of (env : gmap string string) : process :=
  mk_process env [] [] "/home/user".

(** Settings not populated yet. *)
Definition context (wt : option string) (cfg : config_set)
    (env : gmap string string) : state :=
  mk_state (mk_repository wt cfg None) (process_of env).

(** Primary key unset, alias [false], [GIT_TEST_FSMONITOR=/y/hook]. *)
Definition alias_false_context : state :=
  context (Some "/w") (config_of (1, 0) (0, 0) (1, None))
          {["GIT_TEST_FSMONITOR" := "/y/hook"]}.

(** A bare repository with nothing configured. *)
Definition bare_context : state := context None config_empty ∅.

(** A bare repository, primary key unset, alias [true]. *)
Definition bare_alias_true_context : state :=
  context None (config_of (1, 0) (0, 1) (1, None)) ∅.

(** A checkout with nothing configured. *)
Definition plain_context : state := context (Some "/w") config_empty ∅.


(** ** The spec's statements that the code does not satisfy *)

(** Alias [false] ends resolution with mode Disabled. *)
Definition alias_false_ends_resolution (pf : platform) (st : state) : Prop :=
  settings_fsmonitor (repo st) = None →
  repo_config_get_bool (config (repo st)) "core.useBuiltinFSMonitor" = (0, 0) →
  returned (fsm_settings__get_mode pf st) = Some FSMONITOR_MODE_DISABLED.

(** A bare repository always resolves to Incompatible with reason Bare. *)
Definition bare_always_incompatible (pf : platform) (st : state) : Prop :=
  worktree (repo st) = None →
  returned (fsm_settings__get_mode pf st) = Some FSMONITOR_MODE_INCOMPATIBLE
  ∧ returned (fsm_settings__get_reason pf st) = Some FSMONITOR_REASON_BARE.

(** Primary key unset and alias [true] always give mode IPC. *)
Definition alias_true_gives_ipc (pf : platform) (st : state) : Prop :=
  settings_fsmonitor (repo st) = None →
  (repo_config_get_maybe_bool (config (repo st)) "core.fsmonitor").1 = 1 →
  repo_config_get_bool (config (repo st)) "core.useBuiltinFSMonitor" = (0, 1) →
  returned (fsm_settings__get_mode pf st) = Some FSMONITOR_MODE_IPC.

(** ** Further vocabulary *)


(** The same context in another environment. *)
Definition with_environ (st : state) (env : gmap string string) : state :=
  with_proc st (mk_process env (advice_log (proc st)) (error_log (proc st))
                           (cwd (proc st))).

(** The three functions that write the cached mode on request. *)
Definition mutator (c : call) : Prop :=
  match c with
  | Call_set_ipc | Call_set_hook _ | Call_set_disabled => True
  | _ => False
  end.

(** The two functions that enable a mode. *)
Definition enabler (c : call) : Prop :=
  match c with
  | Call_set_ipc | Call_set_hook _ => True
  | _ => False
  end.

(** ** Calls over time

    [check_for_incompatible] reads [r->worktree] and asks the platform probe
    anew at every call, and neither is under the control of this file: the
    probe inspects the file system, and [r->worktree] is written by the
    code that sets the repository up.  A [step] is one call together with
    the working directory and the probe as they are when the call is
    made; a history is a list of steps. *)
Definition with_probe (pf : platform) (probe : string → fsmonitor_reason)
  : platform :=
  mk_platform (HAVE_FSMONITOR_OS_SETTINGS pf) probe (git_env_bool pf).

Definition with_worktree (st : state) (wt : option string) : state :=
  with_repo st
    (mk_repository wt (config (repo st)) (settings_fsmonitor (repo st))).

Record step := mk_step {
  step_worktree : option string;
  step_probe : string → fsmonitor_reason;
  step_call : call
}.

Definition run_step (pf : platform) (x : step) : M unit :=
  λ st, run_call (with_probe pf (step_probe x)) (step_call x)
                 (with_worktree st (step_worktree x)).

Fixpoint run_history (pf : platform) (h : list step) : M unit :=
  match h with
  | [] => mret tt
  | x :: h' => run_step pf x;; run_history pf h'
  end.

(** What holds of the cached settings after every history: a stored hook
    path satisfies [P], and each mode constrains the other two fields as
    far as the code keeps them in step. *)
Definition coherent (P : string → Prop) (s : fsmonitor_settings) : Prop :=
  (∀ path, hook_path s = Some path → P path)
  ∧ match mode s with
    | FSMONITOR_MODE_INCOMPATIBLE => reason s ≠ FSMONITOR_REASON_OK
    | FSMONITOR_MODE_DISABLED =>
        reason s = FSMONITOR_REASON_OK ∧ hook_path s = None
    | FSMONITOR_MODE_IPC => hook_path s = None
    | FSMONITOR_MODE_HOOK => is_Some (hook_path s)
    end.

Definition coherent_state (P : string → Prop) (st : state) : Prop :=
  match settings_fsmonitor (repo st) with
  | Some s => coherent P s
  | None => True
  end.

(** A build with the platform probe, at a moment when the probe fails
    ([FSMONITOR_REASON_ERROR]) and at a moment when it accepts. *)
Definition failing_probe : string → fsmonitor_reason :=
  λ _, FSMONITOR_REASON_ERROR.

Definition accepting_probe : string → fsmonitor_reason :=
  λ _, FSMONITOR_REASON_OK.

Definition probe_fails_platform : platform :=
  mk_platform true failing_probe sample_env_bool.

Definition probe_accepts_platform : platform :=
  mk_platform true accepting_probe sample_env_bool.

(** The checkout [/w] after [set_ipc] was called while the probe failed. *)
Definition pinned_context : state :=
  put_settings
    (mk_settings FSMONITOR_MODE_INCOMPATIBLE FSMONITOR_REASON_ERROR None)
    plain_context.

(** The checkout [/w] after [set_hook] was called while the probe
    accepted. *)
Definition hooked_context : state :=
  put_settings
    (mk_settings FSMONITOR_MODE_HOOK FSMONITOR_REASON_OK (Some "/x/hook"))
    plain_context.

(** The spec's statement that the code does not satisfy: on a context
    pinned Incompatible, [set_ipc] and [set_hook] leave the cached settings
    as they were. *)
Definition pin_is_terminal (pf : platform) (st : state) : Prop :=
  ∀ s, settings_fsmonitor (repo st) = Some s →
       mode s = FSMONITOR_MODE_INCOMPATIBLE →
       final_settings (fsm_settings__set_ipc pf st) = Some s
       ∧ ∀ path, final_settings (fsm_settings__set_hook pf path st) = Some s.

(** * Properties *)

(** ** The call cycle and the cache *)

Lemma lookup_fuel_S pf n :
  lookup_fsmonitor_settings_fuel pf (S n) =
    lookup_body pf (set_ipc_body pf (lookup_fsmonitor_settings_fuel pf n))
                (set_hook_body pf (lookup_fsmonitor_settings_fuel pf n)).
Proof. reflexivity. Qed.

Lemma put_settings_id st s :
  settings_fsmonitor (repo st) = Some s → put_settings s st = st.
Proof. destruct st as [[wt cfg ss] p]. simpl. by intros ->. Qed.

Lemma with_proc_id st : with_proc st (proc st) = st.
Proof. by destruct st. Qed.

(** With the settings populated, lazy resolution returns at once. *)
Lemma lookup_cached pf n st s :
  settings_fsmonitor (repo st) = Some s →
  lookup_fsmonitor_settings_fuel pf (S n) st = Done tt st.
Proof.
  intros H. rewrite lookup_fuel_S. unfold lookup_body.
  unfold mbind, M_bind, r_settings_fsmonitor. by rewrite H.
Qed.

Lemma check_for_incompatible_spec pf st s :
  settings_fsmonitor (repo st) = Some s →
  check_for_incompatible pf st =
    match incompatible_reason pf (repo st) with
    | Some why =>
        Done 1 (put_settings
                  (mk_settings FSMONITOR_MODE_INCOMPATIBLE why (hook_path s)) st)
    | None => Done 0 st
    end.
Proof.
  intros H. unfold check_for_incompatible, incompatible_reason.
  unfold mbind at 1. unfold M_bind at 1. unfold r_worktree at 1.
  assert (Hpin : ∀ why, set_incompatible why st =
    Done tt (put_settings
               (mk_settings FSMONITOR_MODE_INCOMPATIBLE why (hook_path s)) st)).
  { intros why. unfold set_incompatible, assign_mode, assign_reason.
    unfold mbind, M_bind, update_settings. rewrite H. done. }
  destruct (worktree (repo st)) as [dir|].
  - destruct (HAVE_FSMONITOR_OS_SETTINGS pf); [|done].
    cbv zeta. destruct (decide _); [|done].
    unfold mbind at 1. unfold M_bind at 1. by rewrite Hpin.
  - unfold mbind at 1. unfold M_bind at 1. by rewrite Hpin.
Qed.

Lemma set_ipc_cached pf n st s :
  settings_fsmonitor (repo st) = Some s →
  set_ipc_body pf (lookup_fsmonitor_settings_fuel pf (S n)) st =
    Done tt (put_settings (settings_ipc pf (repo st) s) st).
Proof.
  intros H. unfold set_ipc_body, settings_ipc.
  unfold mbind at 1 2. unfold M_bind at 1 2.
  rewrite (lookup_cached _ _ _ _ H), (check_for_incompatible_spec _ _ _ H).
  destruct (incompatible_reason pf (repo st)); [done|].
  rewrite decide_False by tauto.
  unfold assign_mode, FREE_AND_NULL_hook_path, assign_hook_path.
  unfold mbind, M_bind, update_settings. by rewrite H.
Qed.

Lemma set_hook_cached pf n st s path :
  settings_fsmonitor (repo st) = Some s →
  set_hook_body pf (lookup_fsmonitor_settings_fuel pf (S n)) path st =
    Done tt (put_settings (settings_hook pf (repo st) path s) st).
Proof.
  intros H. unfold set_hook_body, settings_hook.
  unfold mbind at 1 2. unfold M_bind at 1 2.
  rewrite (lookup_cached _ _ _ _ H), (check_for_incompatible_spec _ _ _ H).
  destruct (incompatible_reason pf (repo st)); [done|].
  rewrite decide_False by tauto.
  unfold assign_mode, FREE_AND_NULL_hook_path, assign_hook_path, strdup.
  unfold mbind, M_bind, update_settings. by rewrite H.
Qed.

(** ** Lazy resolution from unpopulated settings *)

Lemma check_deprecated_cached pf n st s :
  settings_fsmonitor (repo st) = Some s →
  check_deprecated_builtin_config_body pf
      (set_ipc_body pf (lookup_fsmonitor_settings_fuel pf (S n))) st =
    let st' := with_proc st (if alias_advises pf st then advised (proc st)
                             else proc st) in
    if alias_requests_ipc (config (repo st))
    then Done 1 (put_settings (settings_ipc pf (repo st) s) st')
    else Done 0 st'.
Proof.
  intros H. unfold check_deprecated_builtin_config_body.
  unfold alias_advises, alias_requests_ipc.
  unfold mbind at 1. unfold M_bind at 1. unfold config_get_bool at 1.
  destruct (repo_config_get_bool (config (repo st)) "core.useBuiltinFSMonitor")
    as [rc v] eqn:E.
  cbn [fst snd]. fold suppress_var.
  pose proof (with_proc_id st) as Hst.
  destruct (decide (rc = 0)) as [->|Hrc].
  - unfold mbind at 1. unfold M_bind at 1. unfold env_bool at 1.
    unfold mbind at 1. unfold M_bind at 1.
    destruct (decide (git_env_bool pf suppress_var 0 (environ (proc st)) = 0))
      as [Hs|Hs].
    + unfold mbind at 1. unfold M_bind at 1.
      unfold advise_if_enabled at 1, setenv at 1.
      cbn [proc with_proc environ advice_log error_log cwd].
      fold the_advice. fold (advised (proc st)).
      destruct (decide (v ≠ 0)) as [Hv|Hv].
      * unfold mbind at 1. unfold M_bind at 1.
        rewrite (set_ipc_cached pf n _ s) by done.
        repeat case_bool_decide; cbn [andb]; rewrite ?Hst; first [done | tauto].
      * repeat case_bool_decide; cbn [andb]; rewrite ?Hst; first [done | tauto].
    + unfold mret at 1. unfold M_ret at 1.
      destruct (decide (v ≠ 0)) as [Hv|Hv].
      * unfold mbind at 1. unfold M_bind at 1.
        rewrite (set_ipc_cached pf n _ s) by done.
        repeat case_bool_decide; cbn [andb]; rewrite ?Hst; first [done | tauto].
      * repeat case_bool_decide; cbn [andb]; rewrite ?Hst; first [done | tauto].
  - repeat case_bool_decide; cbn [andb]; rewrite ?Hst; first [done | tauto].
Qed.

Lemma lookup_hook_tail_cached pf n st s const_str :
  settings_fsmonitor (repo st) = Some s →
  lookup_hook_tail (set_hook_body pf (lookup_fsmonitor_settings_fuel pf (S n)))
      const_str st =
    Done tt (put_settings
      (match request_of_string const_str with
       | Request_hook path => settings_hook pf (repo st) path s
       | _ => s
       end) st).
Proof.
  intros H. unfold lookup_hook_tail, request_of_string.
  destruct const_str as [path|]; [|by rewrite put_settings_id].
  destruct (decide (path = "")); [by rewrite put_settings_id|].
  by apply set_hook_cached.
Qed.

Lemma getenv_after_advice (b : bool) p :
  environ (if b then advised p else p) !! "GIT_TEST_FSMONITOR" =
    environ p !! "GIT_TEST_FSMONITOR".
Proof.
  destruct b; [|done]. unfold advised. cbn [environ].
  by rewrite lookup_insert_ne.
Qed.

Lemma settle_tail pf r const_str :
  match request_of_string const_str with
  | Request_hook path => settings_hook pf r path settings_default
  | _ => settings_default
  end = settle pf r (request_of_string const_str).
Proof.
  unfold request_of_string. destruct const_str as [path|]; [|done].
  by destruct (decide (path = "")).
Qed.

(** The whole of lazy resolution, for every configuration, environment and
    repository: two levels of the call cycle suffice, and the state left is
    [resolved]. *)
Lemma lookup_fresh pf n st :
  settings_fsmonitor (repo st) = None →
  lookup_fsmonitor_settings_fuel pf (S (S n)) st = Done tt (resolved pf st).
Proof.
  intros H. rewrite lookup_fuel_S. unfold lookup_body.
  unfold mbind at 1. unfold M_bind at 1. unfold r_settings_fsmonitor at 1.
  rewrite H.
  unfold mbind at 1. unfold M_bind at 1. unfold assign_settings_fsmonitor at 1.
  unfold mbind at 1. unfold M_bind at 1. unfold config_get_maybe_bool at 1.
  fold settings_default. fold (put_settings settings_default st).
  set (st1 := put_settings settings_default st).
  assert (H1 : settings_fsmonitor (repo st1) = Some settings_default) by done.
  assert (Hc : config (repo st1) = config (repo st)) by done.
  assert (Hp : proc st1 = proc st) by done.
  unfold resolved, requested, advises, alias_consulted.
  rewrite Hc.
  destruct (repo_config_get_maybe_bool (config (repo st)) "core.fsmonitor")
    as [rc bv]. cbn [fst snd].
  destruct rc as [|[q|q|]|[q|q|]].
  - rewrite bool_decide_eq_false_2 by lia. cbn [andb].
    destruct (decide (bv ≠ 0)); [|done].
    by rewrite (set_ipc_cached pf n st1 settings_default).
  - by rewrite bool_decide_eq_false_2 by lia.
  - by rewrite bool_decide_eq_false_2 by lia.
  - rewrite bool_decide_eq_true_2 by lia. cbn [andb].
    unfold mbind at 1. unfold M_bind at 1.
    rewrite (check_deprecated_cached pf n st1 settings_default) by done.
    cbv zeta. rewrite Hc. unfold alias_advises. rewrite Hc, Hp.
    fold (alias_advises pf st).
    destruct (alias_requests_ipc (config (repo st))).
    + by rewrite decide_True.
    + rewrite decide_False by tauto.
      unfold mbind at 1. unfold M_bind at 1. unfold getenv at 1.
      rewrite (lookup_hook_tail_cached pf n _ settings_default) by done.
      cbn [proc with_proc]. rewrite getenv_after_advice.
      by rewrite settle_tail.
  - by rewrite bool_decide_eq_false_2 by lia.
  - by rewrite bool_decide_eq_false_2 by lia.
  - rewrite bool_decide_eq_true_2 by lia. cbn [andb].
    unfold mbind at 1. unfold M_bind at 1.
    rewrite (check_deprecated_cached pf n st1 settings_default) by done.
    cbv zeta. rewrite Hc. unfold alias_advises. rewrite Hc, Hp.
    fold (alias_advises pf st).
    destruct (alias_requests_ipc (config (repo st))).
    + by rewrite decide_True.
    + rewrite decide_False by tauto.
      unfold mbind at 1. unfold M_bind at 1. unfold config_get_pathname at 1.
      cbn [repo with_proc]. rewrite Hc.
      destruct (repo_config_get_pathname (config (repo st)) "core.fsmonitor")
        as [failed const_str]. cbn [fst snd].
      destruct (decide (failed ≠ 0)); [done|].
      rewrite (lookup_hook_tail_cached pf n _ settings_default) by done.
      by rewrite settle_tail.
Qed.

(** ** Every exported function, on every state *)

Lemma ready_settings pf st :
  settings_fsmonitor (repo (ready pf st)) = Some (cached pf st).
Proof.
  unfold ready, cached.
  by destruct (settings_fsmonitor (repo st)) eqn:E.
Qed.

Lemma ready_worktree pf st : worktree (repo (ready pf st)) = worktree (repo st).
Proof. unfold ready. by destruct (settings_fsmonitor (repo st)). Qed.

Lemma ready_config pf st : config (repo (ready pf st)) = config (repo st).
Proof. unfold ready. by destruct (settings_fsmonitor (repo st)). Qed.

Lemma ready_incompatible_reason pf st :
  incompatible_reason pf (repo (ready pf st)) = incompatible_reason pf (repo st).
Proof. unfold incompatible_reason. by rewrite ready_worktree. Qed.

Lemma lookup_run pf st :
  lookup_fsmonitor_settings pf st = Done tt (ready pf st).
Proof.
  unfold lookup_fsmonitor_settings, call_depth, ready.
  destruct (settings_fsmonitor (repo st)) as [s|] eqn:E.
  - by apply lookup_cached with s.
  - by apply lookup_fresh.
Qed.

(** More fuel changes nothing. *)
Lemma lookup_fuel_enough pf n st :
  (call_depth ≤ n)%nat →
  lookup_fsmonitor_settings_fuel pf n st = lookup_fsmonitor_settings pf st.
Proof.
  unfold call_depth. intros Hn.
  destruct n as [|[|n]]; [lia|lia|].
  rewrite lookup_run. unfold ready.
  destruct (settings_fsmonitor (repo st)) as [s|] eqn:E.
  - by apply lookup_cached with s.
  - by apply lookup_fresh.
Qed.

Lemma ready_ready pf st : ready pf (ready pf st) = ready pf st.
Proof. unfold ready at 1. by rewrite ready_settings. Qed.

(** A function that starts with [lookup_fsmonitor_settings] does on [st]
    what it does on [ready pf st]. *)
Lemma lookup_shift {A} pf (rest : unit → M A) st :
  (lookup_fsmonitor_settings pf ≫= rest) st =
    (lookup_fsmonitor_settings pf ≫= rest) (ready pf st).
Proof. unfold mbind, M_bind. by rewrite !lookup_run, ready_ready. Qed.

Lemma get_mode_run pf st :
  fsm_settings__get_mode pf st = Done (mode (cached pf st)) (ready pf st).
Proof.
  unfold fsm_settings__get_mode, get_mode_body.
  unfold mbind, M_bind. rewrite lookup_run.
  unfold deref_settings. by rewrite ready_settings.
Qed.

Lemma get_hook_path_run pf st :
  fsm_settings__get_hook_path pf st =
    Done (hook_path (cached pf st)) (ready pf st).
Proof.
  unfold fsm_settings__get_hook_path, get_hook_path_body.
  unfold mbind, M_bind. rewrite lookup_run.
  unfold deref_settings. by rewrite ready_settings.
Qed.

Lemma get_reason_run pf st :
  fsm_settings__get_reason pf st = Done (reason (cached pf st)) (ready pf st).
Proof.
  unfold fsm_settings__get_reason, get_reason_body.
  unfold mbind, M_bind. rewrite lookup_run.
  unfold deref_settings. by rewrite ready_settings.
Qed.

Lemma set_ipc_run pf st :
  fsm_settings__set_ipc pf st =
    Done tt (put_settings (settings_ipc pf (repo st) (cached pf st))
                          (ready pf st)).
Proof.
  unfold fsm_settings__set_ipc.
  transitivity (set_ipc_body pf (lookup_fsmonitor_settings pf) (ready pf st));
    [apply lookup_shift|].
  unfold lookup_fsmonitor_settings, call_depth.
  rewrite (set_ipc_cached pf _ _ _ (ready_settings pf st)).
  unfold settings_ipc. by rewrite ready_incompatible_reason.
Qed.

Lemma set_hook_run pf st path :
  fsm_settings__set_hook pf path st =
    Done tt (put_settings (settings_hook pf (repo st) path (cached pf st))
                          (ready pf st)).
Proof.
  unfold fsm_settings__set_hook.
  transitivity
    (set_hook_body pf (lookup_fsmonitor_settings pf) path (ready pf st));
    [apply lookup_shift|].
  unfold lookup_fsmonitor_settings, call_depth.
  rewrite (set_hook_cached pf _ _ _ _ (ready_settings pf st)).
  unfold settings_hook. by rewrite ready_incompatible_reason.
Qed.

Lemma set_disabled_run pf st :
  fsm_settings__set_disabled pf st =
    Done tt (put_settings settings_default (ready pf st)).
Proof.
  unfold fsm_settings__set_disabled, set_disabled_body.
  unfold mbind at 1. unfold M_bind at 1. rewrite lookup_run.
  unfold assign_mode, assign_reason, FREE_AND_NULL_hook_path, assign_hook_path.
  unfold mbind, M_bind, update_settings. by rewrite ready_settings.
Qed.

Lemma error_if_incompatible_run pf st :
  fsm_settings__error_if_incompatible pf st =
    match reason (cached pf st) with
    | FSMONITOR_REASON_OK => Done 0 (ready pf st)
    | FSMONITOR_REASON_UNLISTED code =>
        Bug msg_unhandled (FSMONITOR_REASON_UNLISTED code) (ready pf st)
    | why =>
        match error_report (ready pf st) why with
        | Some e => Done 1 (with_error (ready pf st) e)
        | None => Fault
        end
    end.
Proof.
  unfold fsm_settings__error_if_incompatible.
  unfold mbind at 1. unfold M_bind at 1. rewrite get_reason_run.
  by destruct (reason (cached pf st)).
Qed.

Lemma ready_repo pf st :
  repo (ready pf st) = with_settings (repo st) (Some (cached pf st)).
Proof.
  unfold ready, cached. destruct st as [[wt cfg ss] p]. cbn.
  by destruct ss.
Qed.

Lemma put_settings_repo s st :
  repo (put_settings s st) = with_settings (repo st) (Some s).
Proof. done. Qed.

Lemma with_settings_twice r x y :
  with_settings (with_settings r x) y = with_settings r y.
Proof. done. Qed.

(** What an exported call does to the repository, to the environment and
    to the advice output; it returns, or aborts through [BUG]. *)
Lemma run_call_exported pf c st :
  exported c →
  ∃ st',
    (run_call pf c st = Done tt st'
     ∨ ∃ msg arg, run_call pf c st = Bug msg arg st')
    ∧ repo st' = with_settings (repo st)
                   (Some (settings_after pf (repo st) c (cached pf st)))
    ∧ environ (proc st') = environ (proc (ready pf st))
    ∧ advice_log (proc st') = advice_log (proc (ready pf st)).
Proof.
  intros Hc. destruct c; cbn [run_call settings_after].
  - exists (ready pf st). unfold mbind, M_bind. rewrite get_mode_run.
    by rewrite ready_repo; eauto.
  - exists (ready pf st). unfold mbind, M_bind. rewrite get_hook_path_run.
    by rewrite ready_repo; eauto.
  - exists (ready pf st). unfold mbind, M_bind. rewrite get_reason_run.
    by rewrite ready_repo; eauto.
  - eexists. rewrite set_ipc_run. split; [by left|].
    by rewrite put_settings_repo, ready_repo.
  - eexists. rewrite set_hook_run. split; [by left|].
    by rewrite put_settings_repo, ready_repo.
  - eexists. rewrite set_disabled_run. split; [by left|].
    by rewrite put_settings_repo, ready_repo.
  - unfold mbind, M_bind. rewrite error_if_incompatible_run.
    destruct (reason (cached pf st));
      cbn [error_report]; eexists;
      (split; [first [by left | right; by eauto]|]);
      unfold with_error; cbn [repo proc with_proc environ advice_log];
      by rewrite ready_repo.
  - by destruct Hc.
Qed.

Lemma run_call_check pf st s :
  settings_fsmonitor (repo st) = Some s →
  run_call pf Call_check_for_incompatible st =
    Done tt (put_settings
               (settings_after pf (repo st) Call_check_for_incompatible s) st).
Proof.
  intros H. cbn [run_call settings_after]. unfold mbind, M_bind.
  rewrite (check_for_incompatible_spec pf st s H).
  destruct (incompatible_reason pf (repo st)); [done|].
  by rewrite put_settings_id.
Qed.

(** On unpopulated settings the internal check either finds the repository
    compatible and touches nothing, or dereferences the NULL pointer. *)
Lemma check_for_incompatible_fresh pf st :
  settings_fsmonitor (repo st) = None →
  check_for_incompatible pf st =
    match incompatible_reason pf (repo st) with
    | Some _ => Fault
    | None => Done 0 st
    end.
Proof.
  intros H.
  assert (Hpin : ∀ why, set_incompatible why st = Fault).
  { intros why. unfold set_incompatible, assign_mode.
    unfold mbind, M_bind, update_settings. by rewrite H. }
  unfold check_for_incompatible, incompatible_reason.
  unfold mbind at 1. unfold M_bind at 1. unfold r_worktree at 1.
  destruct (worktree (repo st)) as [dir|].
  - destruct (HAVE_FSMONITOR_OS_SETTINGS pf); [|done].
    cbv zeta. destruct (decide _); [|done].
    unfold mbind, M_bind. by rewrite Hpin.
  - unfold mbind, M_bind. by rewrite Hpin.
Qed.

Lemma run_call_check_fresh pf st :
  settings_fsmonitor (repo st) = None →
  run_call pf Call_check_for_incompatible st = Done tt st
  ∨ run_call pf Call_check_for_incompatible st = Fault.
Proof.
  intros H. cbn [run_call]. unfold mbind, M_bind.
  rewrite (check_for_incompatible_fresh pf st H).
  destruct (incompatible_reason pf (repo st)); [by right | by left].
Qed.

(** ** The settings under one answer of the check *)

Lemma request_of_string_hook const_str path :
  request_of_string const_str = Request_hook path →
  const_str = Some path ∧ path ≠ "".
Proof.
  unfold request_of_string. destruct const_str as [p|]; [|done].
  destruct (decide (p = "")); [done|]. by intros [= ->].
Qed.

Lemma request_of_string_not_ipc const_str :
  request_of_string const_str ≠ Request_ipc.
Proof.
  unfold request_of_string. destruct const_str as [p|]; [|done].
  by destruct (decide (p = "")).
Qed.

(** Lazy resolution never asks for a hook with an empty path. *)
Lemma requested_hook_nonempty st path :
  requested st = Request_hook path → path ≠ "".
Proof.
  unfold requested.
  destruct (repo_config_get_maybe_bool _ _).1 as [|[q|q|]|[q|q|]]; try done.
  - by destruct (decide _).
  - destruct (alias_requests_ipc _); [done|].
    intros H. by apply request_of_string_hook in H as [_ H].
  - destruct (alias_requests_ipc _); [done|].
    destruct (decide _); [done|].
    intros H. by apply request_of_string_hook in H as [_ H].
Qed.

Lemma settled_settle P pf st :
  (∀ path, path ≠ "" → P path) →
  settled P pf (repo st) (settle pf (repo st) (requested st)).
Proof.
  intros HP. pose proof (requested_hook_nonempty st) as Hne.
  destruct (requested st) as [| |path];
    unfold settle, settings_ipc, settings_hook, settled;
    destruct (incompatible_reason pf (repo st)); cbn; eauto.
  split; [done|]. exists path. split; [done|]. by apply HP, Hne.
Qed.

Lemma settled_after P pf r c s :
  settled P pf r s → hook_path_ok P c →
  settled P pf r (settings_after pf r c s).
Proof.
  unfold settled. intros Hs Hc.
  destruct c; cbn [settings_after hook_path_ok] in *; try done;
    unfold settings_ipc, settings_hook, settings_default;
    destruct (incompatible_reason pf r); cbn; try done;
    destruct Hs as [Hs1 Hs2]; eauto.
Qed.

Lemma invariant_cached P pf st :
  (∀ path, path ≠ "" → P path) →
  invariant P pf st → settled P pf (repo st) (cached pf st).
Proof.
  unfold invariant, cached. intros HP.
  destruct (settings_fsmonitor (repo st)); [done|].
  intros _. by apply settled_settle.
Qed.

Lemma invariant_run_call P pf c st st' :
  (∀ path, path ≠ "" → P path) →
  invariant P pf st → hook_path_ok P c →
  run_call pf c st = Done tt st' →
  invariant P pf st'.
Proof.
  intros HP Hinv Hc Hrun.
  destruct (decide (c = Call_check_for_incompatible)) as [->|Hex].
  - destruct (settings_fsmonitor (repo st)) as [s|] eqn:E.
    + rewrite (run_call_check pf st s E) in Hrun. injection Hrun as <-.
      unfold invariant in *. rewrite E in Hinv. cbn.
      by apply (settled_after P pf (repo st) Call_check_for_incompatible s).
    + destruct (run_call_check_fresh pf st E) as [H|H];
        rewrite H in Hrun; [|done].
      by injection Hrun as <-.
  - destruct (run_call_exported pf c st Hex) as (st2 & Hout & Hrepo & _).
    assert (st2 = st') as ->.
    { destruct Hout as [H|(msg & arg & H)]; rewrite H in Hrun; congruence. }
    unfold invariant. rewrite Hrepo. cbn.
    apply (settled_after P pf (repo st) c); [|done].
    by apply invariant_cached.
Qed.

Lemma invariant_run_calls P pf cs : ∀ st st',
  (∀ path, path ≠ "" → P path) →
  invariant P pf st → Forall (hook_path_ok P) cs →
  run_calls pf cs st = Done tt st' →
  invariant P pf st'.
Proof.
  induction cs as [|c cs IH]; intros st st' HP Hinv Hcs Hrun.
  - cbn in Hrun. unfold mret, M_ret in Hrun. by injection Hrun as <-.
  - apply Forall_cons in Hcs as [Hc Hcs].
    cbn [run_calls] in Hrun. unfold mbind, M_bind in Hrun.
    destruct (run_call pf c st) as [[] st1| | |] eqn:E; try done.
    apply (IH st1 st'); try done.
    by apply (invariant_run_call P pf c st st1).
Qed.


Lemma passes_check_iff pf st :
  passes_check pf st ↔ incompatible_reason pf (repo st) = None.
Proof.
  unfold passes_check.
  destruct (settings_fsmonitor (repo st)) as [s|] eqn:E.
  - rewrite (check_for_incompatible_spec pf st s E).
    by destruct (incompatible_reason pf (repo st)).
  - rewrite (check_for_incompatible_fresh pf st E).
    by destruct (incompatible_reason pf (repo st)).
Qed.

(** ** The embedding at work *)

Example primary_true_gives_ipc :
  fsm_settings__get_mode plain_platform
    (context (Some "/w") (config_of (0, 1) (1, 0) (1, None)) ∅) =
  Done FSMONITOR_MODE_IPC
    (put_settings (mk_settings FSMONITOR_MODE_IPC FSMONITOR_REASON_OK None)
       (context (Some "/w") (config_of (0, 1) (1, 0) (1, None)) ∅)).
Proof. vm_compute. reflexivity. Qed.

Example primary_path_gives_hook :
  returned (fsm_settings__get_hook_path plain_platform
    (context (Some "/w") (config_of (-1, 0) (1, 0) (0, Some "/x/hook")) ∅)) =
  Some (Some "/x/hook").
Proof. vm_compute. reflexivity. Qed.

Example environment_gives_hook :
  final_settings (fsm_settings__get_mode plain_platform
    (context (Some "/w") config_empty {["GIT_TEST_FSMONITOR" := "/y/hook"]})) =
  Some (mk_settings FSMONITOR_MODE_HOOK FSMONITOR_REASON_OK (Some "/y/hook")).
Proof. vm_compute. reflexivity. Qed.

Example remote_mount_is_reported :
  fsm_settings__error_if_incompatible probing_platform
    (context (Some "/mnt/remote") (config_of (0, 1) (1, 0) (1, None)) ∅) =
  Done 1
    (mk_state
       (mk_repository (Some "/mnt/remote") (config_of (0, 1) (1, 0) (1, None))
          (Some (mk_settings FSMONITOR_MODE_INCOMPATIBLE
                             FSMONITOR_REASON_REMOTE None)))
       (mk_process ∅ [] [(msg_remote, Some "/mnt/remote")] "/home/user")).
Proof. vm_compute. reflexivity. Qed.

Example unlisted_reason_aborts :
  ∃ st, fsm_settings__error_if_incompatible
          (mk_platform true (λ _, FSMONITOR_REASON_UNLISTED 7) sample_env_bool)
          (context (Some "/w") (config_of (0, 1) (1, 0) (1, None)) ∅) =
        Bug msg_unhandled (FSMONITOR_REASON_UNLISTED 7) st.
Proof. eexists. rewrite error_if_incompatible_run. reflexivity. Qed.

Example one_level_is_not_enough :
  lookup_fsmonitor_settings_fuel plain_platform 1
    (context (Some "/w") (config_of (0, 1) (1, 0) (1, None)) ∅) = OutOfFuel.
Proof. vm_compute. reflexivity. Qed.

(** ** The claims *)

(** C1, as the spec states it, fails: with the primary key unset, the alias
    [false] and [GIT_TEST_FSMONITOR=/y/hook], the alias check reports "not
    handled" (0), the environment fallback is consulted and the mode is
    Hook with that path, not Disabled. *)
Lemma C1_alias_false_counterexample :
  returned (check_deprecated_builtin_config plain_platform
              (put_settings settings_default alias_false_context)) = Some 0
  ∧ returned (fsm_settings__get_mode plain_platform alias_false_context)
    = Some FSMONITOR_MODE_HOOK
  ∧ returned (fsm_settings__get_hook_path plain_platform alias_false_context)
    = Some (Some "/y/hook")
  ∧ ¬ alias_false_ends_resolution plain_platform alias_false_context.
Proof.
  repeat split; try (vm_compute; reflexivity).
  intros H. specialize (H eq_refl eq_refl). vm_compute in H. discriminate.
Qed.

(** C1, amended: when the alias is consulted (primary key unset or an
    arbitrary string) and is present with value [false], the alias check
    returns 0 ("not handled") and resolution goes on as it does without the
    alias: the environment variable (primary key unset) or the primary
    key's pathname (primary key a string) is read, and the mode is Disabled
    only when that yields no non-empty path; otherwise it is Hook with that
    path, or Incompatible when the context fails the incompatibility
    check. *)
Theorem C1_alias_false_continues pf st :
  settings_fsmonitor (repo st) = None →
  repo_config_get_bool (config (repo st)) "core.useBuiltinFSMonitor" = (0, 0) →
  (repo_config_get_maybe_bool (config (repo st)) "core.fsmonitor").1 = 1
  ∨ (repo_config_get_maybe_bool (config (repo st)) "core.fsmonitor").1 = -1 →
  let const_str :=
    if decide ((repo_config_get_maybe_bool (config (repo st))
                  "core.fsmonitor").1 = 1)
    then environ (proc st) !! "GIT_TEST_FSMONITOR"
    else if decide ((repo_config_get_pathname (config (repo st))
                       "core.fsmonitor").1 ≠ 0)
         then None
         else (repo_config_get_pathname (config (repo st)) "core.fsmonitor").2
  in
  returned (check_deprecated_builtin_config pf
              (put_settings settings_default st)) = Some 0
  ∧ final_settings (fsm_settings__get_mode pf st) =
      Some match const_str with
           | Some path =>
               if decide (path = "") then settings_default
               else match incompatible_reason pf (repo st) with
                    | None =>
                        mk_settings FSMONITOR_MODE_HOOK FSMONITOR_REASON_OK
                                    (Some path)
                    | Some why =>
                        mk_settings FSMONITOR_MODE_INCOMPATIBLE why None
                    end
           | None => settings_default
           end.
Proof.
  intros Hfresh Halias Hrc const_str. split.
  - unfold check_deprecated_builtin_config, fsm_settings__set_ipc,
      lookup_fsmonitor_settings, call_depth.
    rewrite (check_deprecated_cached pf 1 _ settings_default) by done.
    cbv zeta. unfold alias_requests_ipc. cbn [repo put_settings with_repo
      with_settings config]. rewrite Halias. cbn [fst snd].
    by rewrite bool_decide_eq_false_2 by tauto.
  - rewrite get_mode_run. unfold final_settings. cbn [final_state mbind option_bind].
    rewrite ready_settings. f_equal.
    unfold cached. rewrite Hfresh. unfold requested, alias_requests_ipc.
    rewrite Halias. cbn [fst snd].
    rewrite bool_decide_eq_false_2 by tauto.
    subst const_str.
    destruct Hrc as [-> | ->].
    + rewrite decide_True by done.
      unfold request_of_string, settle, settings_hook.
      destruct (environ (proc st) !! "GIT_TEST_FSMONITOR") as [path|]; [|done].
      destruct (decide (path = "")); reflexivity.
    + destruct (decide (-1 = 1)) as [?|_]; [lia|].
      destruct (decide _); [done|].
      unfold request_of_string, settle, settings_hook.
      destruct (repo_config_get_pathname _ _).2 as [path|]; [|done].
      destruct (decide (path = "")); reflexivity.
Qed.

Lemma C1_alias_false_continues_witness :
  final_settings (fsm_settings__get_mode plain_platform alias_false_context) =
    Some (mk_settings FSMONITOR_MODE_HOOK FSMONITOR_REASON_OK (Some "/y/hook")).
Proof.
  apply (C1_alias_false_continues plain_platform alias_false_context);
    [reflexivity | reflexivity | left; reflexivity].
Defined.

(** C2, as the spec states it, fails: a bare repository with nothing
    configured resolves to Disabled with reason Ok; the bare check is never
    run. *)
Lemma C2_bare_counterexample :
  worktree (repo bare_context) = None
  ∧ returned (fsm_settings__get_mode plain_platform bare_context)
    = Some FSMONITOR_MODE_DISABLED
  ∧ returned (fsm_settings__get_reason plain_platform bare_context)
    = Some FSMONITOR_REASON_OK
  ∧ ¬ bare_always_incompatible plain_platform bare_context.
Proof.
  repeat split; try (vm_compute; reflexivity).
  intros H. destruct (H eq_refl) as [H1 _]. vm_compute in H1. discriminate.
Qed.

(** C2, amended: the bare check runs only inside [fsm_settings__set_ipc]
    and [fsm_settings__set_hook].  For a bare repository, [get_mode]
    returns Incompatible and [get_reason] returns Bare exactly when the
    configuration and environment make lazy resolution ask for IPC or for a
    hook; when they ask for nothing, the context resolves to Disabled with
    reason Ok.  A call of [set_ipc] or [set_hook] on a bare repository pins
    Incompatible with reason Bare whatever the configuration. *)
Theorem C2_bare_resolution pf st :
  worktree (repo st) = None →
  (settings_fsmonitor (repo st) = None →
   returned (fsm_settings__get_mode pf st) =
     Some (match requested st with
           | Request_none => FSMONITOR_MODE_DISABLED
           | _ => FSMONITOR_MODE_INCOMPATIBLE
           end)
   ∧ returned (fsm_settings__get_reason pf st) =
       Some (match requested st with
             | Request_none => FSMONITOR_REASON_OK
             | _ => FSMONITOR_REASON_BARE
             end))
  ∧ (∀ c, c = Call_set_ipc ∨ (∃ path, c = Call_set_hook path) →
     ∃ st', run_call pf c st = Done tt st'
            ∧ fsm_settings__get_mode pf st'
              = Done FSMONITOR_MODE_INCOMPATIBLE st'
            ∧ fsm_settings__get_reason pf st'
              = Done FSMONITOR_REASON_BARE st').
Proof.
  intros Hbare.
  assert (Hinc : incompatible_reason pf (repo st) = Some FSMONITOR_REASON_BARE).
  { unfold incompatible_reason. by rewrite Hbare. }
  split.
  - intros Hfresh. rewrite get_mode_run, get_reason_run. cbn [returned].
    unfold cached. rewrite Hfresh.
    unfold settle, settings_ipc, settings_hook. rewrite Hinc.
    by destruct (requested st).
  - intros c Hc.
    assert (∃ s, run_call pf c st = Done tt (put_settings s (ready pf st))
                 ∧ mode s = FSMONITOR_MODE_INCOMPATIBLE
                 ∧ reason s = FSMONITOR_REASON_BARE) as (s & Hrun & Hm & Hr).
    { destruct Hc as [-> | [path ->]]; cbn [run_call].
      - rewrite set_ipc_run. eexists. split; [done|].
        unfold settings_ipc. by rewrite Hinc.
      - rewrite set_hook_run. eexists. split; [done|].
        unfold settings_hook. by rewrite Hinc. }
    eexists. split; [exact Hrun|].
    rewrite get_mode_run, get_reason_run.
    unfold ready, cached. cbn [put_settings with_repo with_settings repo
      settings_fsmonitor]. by rewrite Hm, Hr.
Qed.

Lemma C2_bare_resolution_witness :
  returned (fsm_settings__get_mode plain_platform bare_alias_true_context)
    = Some FSMONITOR_MODE_INCOMPATIBLE
  ∧ returned (fsm_settings__get_reason plain_platform bare_alias_true_context)
    = Some FSMONITOR_REASON_BARE.
Proof.
  apply (C2_bare_resolution plain_platform bare_alias_true_context);
    reflexivity.
Defined.

(** C6: [set_disabled] returns, from every state (settings unpopulated,
    populated, or pinned Incompatible), with mode Disabled, reason Ok and
    no hook path. *)
Theorem C6_set_disabled_unconditional pf st :
  ∃ st', fsm_settings__set_disabled pf st = Done tt st'
         ∧ settings_fsmonitor (repo st') =
             Some (mk_settings FSMONITOR_MODE_DISABLED FSMONITOR_REASON_OK None).
Proof. rewrite set_disabled_run. by eexists. Qed.

(** C7: with [core.fsmonitor] set to boolean false, lazy resolution ends at
    the [switch]: the mode is Disabled whatever the alias key and the
    environment hold, and neither is touched (the process state, advice
    output included, is unchanged). *)
Theorem C7_primary_false_disables pf st :
  settings_fsmonitor (repo st) = None →
  repo_config_get_maybe_bool (config (repo st)) "core.fsmonitor" = (0, 0) →
  fsm_settings__get_mode pf st =
    Done FSMONITOR_MODE_DISABLED (put_settings settings_default st).
Proof.
  intros Hfresh Hprimary. rewrite get_mode_run.
  unfold cached, ready, resolved, requested, advises, alias_consulted.
  rewrite Hfresh, Hprimary. cbn [fst snd].
  rewrite decide_False by tauto.
  by rewrite bool_decide_eq_false_2 by lia.
Qed.

Lemma C7_primary_false_disables_witness :
  fsm_settings__get_mode plain_platform
    (context (Some "/w") (config_of (0, 0) (0, 1) (1, None))
             {["GIT_TEST_FSMONITOR" := "/y/hook"]}) =
  Done FSMONITOR_MODE_DISABLED
    (put_settings settings_default
       (context (Some "/w") (config_of (0, 0) (0, 1) (1, None))
                {["GIT_TEST_FSMONITOR" := "/y/hook"]})).
Proof.
  apply (C7_primary_false_disables plain_platform); reflexivity.
Defined.


(** C10: [set_hook] itself does not reject the empty string.  On a context
    that passes the incompatibility check it sets mode Hook and stores the
    empty path.  Lazy resolution does reject it: an empty
    [GIT_TEST_FSMONITOR] (primary key unset) or an empty pathname (primary
    key a string), with the alias not asking for IPC, leaves the default
    settings. *)
Theorem C10_set_hook_accepts_empty pf st :
  (passes_check pf st →
   ∃ st' why,
     fsm_settings__set_hook pf "" st = Done tt st'
     ∧ settings_fsmonitor (repo st') =
         Some (mk_settings FSMONITOR_MODE_HOOK why (Some "")))
  ∧ (settings_fsmonitor (repo st) = None →
     alias_requests_ipc (config (repo st)) = false →
     (repo_config_get_maybe_bool (config (repo st)) "core.fsmonitor").1 = 1
     ∧ environ (proc st) !! "GIT_TEST_FSMONITOR" = Some ""
     ∨ (repo_config_get_maybe_bool (config (repo st)) "core.fsmonitor").1 = -1
       ∧ repo_config_get_pathname (config (repo st)) "core.fsmonitor"
         = (0, Some "") →
     final_settings (fsm_settings__get_mode pf st) = Some settings_default).
Proof.
  split.
  - intros Hpass%passes_check_iff. rewrite set_hook_run.
    eexists _, _. split; [done|].
    cbn [put_settings with_repo with_settings repo settings_fsmonitor].
    unfold settings_hook. by rewrite Hpass.
  - intros Hfresh Halias Hsrc. rewrite get_mode_run.
    unfold final_settings. cbn [final_state mbind option_bind].
    rewrite ready_settings. f_equal.
    unfold cached, requested. rewrite Hfresh, Halias.
    destruct Hsrc as [[-> ->] | [-> ->]]; cbn [fst snd]; [done|].
    by rewrite decide_False by tauto.
Qed.

Lemma C10_set_hook_accepts_empty_witness :
  ∃ st' why,
    fsm_settings__set_hook plain_platform "" plain_context = Done tt st'
    ∧ settings_fsmonitor (repo st') =
        Some (mk_settings FSMONITOR_MODE_HOOK why (Some "")).
Proof.
  apply (C10_set_hook_accepts_empty plain_platform plain_context).
  reflexivity.
Defined.

(** Exported calls never fault and never run out of fuel: a sequence of
    them returns, unless [fsm_settings__error_if_incompatible] aborts it
    through [BUG]. *)
Lemma run_calls_exported pf cs : ∀ st,
  Forall exported cs →
  (∃ st', run_calls pf cs st = Done tt st')
  ∨ (∃ msg arg st', run_calls pf cs st = Bug msg arg st').
Proof.
  induction cs as [|c cs IH]; intros st Hcs.
  - left. by exists st.
  - apply Forall_cons in Hcs as [Hc Hcs].
    cbn [run_calls]. unfold mbind, M_bind.
    destruct (run_call_exported pf c st Hc)
      as (st1 & [H|(msg & arg & H)] & _); rewrite H.
    + apply IH, Hcs.
    + right. by eexists _, _, _.
Qed.

(** ** The deprecation advisory across a process *)

Lemma ready_advice_step pf st : advice_step pf (proc st) (proc (ready pf st)).
Proof.
  unfold ready. destruct (settings_fsmonitor (repo st)); [by left|].
  unfold resolved. cbn [proc].
  destruct (advises pf st) eqn:E; [|by left].
  right. unfold advises, alias_advises in E.
  apply andb_prop in E as [_ [_ E%bool_decide_eq_true]%andb_prop].
  done.
Qed.

(** One call, exported or not, emits at most one advisory, and only
    together with setting the suppression variable. *)
Lemma run_call_advice_step pf c st :
  match run_call pf c st with
  | Done _ st' | Bug _ _ st' => advice_step pf (proc st) (proc st')
  | _ => True
  end.
Proof.
  destruct (decide (c = Call_check_for_incompatible)) as [->|Hex].
  - destruct (settings_fsmonitor (repo st)) as [s|] eqn:E.
    + rewrite (run_call_check pf st s E). by left.
    + destruct (run_call_check_fresh pf st E) as [H|H]; rewrite H; [by left|done].
  - destruct (run_call_exported pf c st Hex)
      as (st' & Hout & _ & Henv & Hadv).
    pose proof (ready_advice_step pf st) as Hstep.
    unfold advice_step in *. rewrite <- Henv, <- Hadv in Hstep.
    by destruct Hout as [H|(msg & arg & H)]; rewrite H.
Qed.

Section AdviceOnce.

Variable pf : platform.

(** The reader of boolean environment variables takes the text [1], which
    [check_deprecated_builtin_config] stores, for true. *)
Hypothesis one_is_true : ∀ def env,
  env !! suppress_var = Some "1" → git_env_bool pf suppress_var def env ≠ 0.

Lemma session_suppressed sched : ∀ ss,
  environ (shared ss) !! suppress_var = Some "1" →
  advice_log (shared (run_session pf sched ss)) = advice_log (shared ss).
Proof.
  induction sched as [|[i c] sched IH]; intros ss Hsup; [done|].
  cbn [run_session].
  destruct (repositories ss !! i) as [r|]; [|by apply IH].
  pose proof (run_call_advice_step pf c (mk_state r (shared ss))) as Hstep.
  assert (Hquiet : ∀ p',
    advice_step pf (shared ss) p' →
    environ p' = environ (shared ss) ∧ advice_log p' = advice_log (shared ss)).
  { intros p' [H|[H _]]; [done|]. by apply one_is_true in H. }
  destruct (run_call pf c (mk_state r (shared ss))) as [a st'|m a st'| |];
    try done; apply Hquiet in Hstep as [Henv Hadv]; cbn [proc] in *.
  - rewrite IH; cbn [shared]; [done|]. by rewrite Henv.
  - done.
Qed.

Lemma session_advice_once sched : ∀ ss,
  advice_log (shared (run_session pf sched ss)) = advice_log (shared ss)
  ∨ advice_log (shared (run_session pf sched ss))
    = (advice_log (shared ss) ++ [the_advice])%list.
Proof.
  induction sched as [|[i c] sched IH]; intros ss; [by left|].
  cbn [run_session].
  destruct (repositories ss !! i) as [r|]; [|by apply IH].
  pose proof (run_call_advice_step pf c (mk_state r (shared ss))) as Hstep.
  destruct (run_call pf c (mk_state r (shared ss))) as [a st'|m a st'| |];
    cbn [proc] in Hstep; [| |by left|by left].
  - destruct Hstep as [[Henv Hadv]|(_ & Henv & Hadv)].
    + rewrite <- Hadv. apply IH.
    + right. rewrite session_suppressed; cbn [shared]; [done|].
      rewrite Henv. apply lookup_insert_eq.
  - cbn [shared]. destruct Hstep as [[_ Hadv]|(_ & _ & Hadv)]; eauto.
Qed.

End AdviceOnce.

(** C8, as the spec states it, fails: on a bare repository with the primary
    key unset and the alias [true], [get_mode] yields Incompatible, not
    IPC. *)
Lemma C8_alias_true_counterexample :
  returned (fsm_settings__get_mode plain_platform bare_alias_true_context)
    = Some FSMONITOR_MODE_INCOMPATIBLE
  ∧ ¬ alias_true_gives_ipc plain_platform bare_alias_true_context.
Proof.
  split; [vm_compute; reflexivity|].
  intros H. specialize (H eq_refl eq_refl eq_refl).
  vm_compute in H. discriminate.
Qed.

(** C8, amended: with the primary key unset and the alias [true],
    [get_mode] yields IPC on a context that passes the incompatibility
    check, and Incompatible with the reason of the check on one that does
    not.  Across every sequence of calls made on the repositories of one
    process, the deprecation advisory is emitted at most once: the advice
    output at the end is the one at the start, or that followed by the one
    advisory.  (The reader of boolean environment variables is taken to
    read the stored text [1] as true.) *)
Theorem C8_alias_true_ipc_advice_once pf :
  (∀ def env,
     env !! suppress_var = Some "1" →
     git_env_bool pf suppress_var def env ≠ 0) →
  (∀ st,
     settings_fsmonitor (repo st) = None →
     (repo_config_get_maybe_bool (config (repo st)) "core.fsmonitor").1 = 1 →
     (repo_config_get_bool (config (repo st)) "core.useBuiltinFSMonitor").1 = 0 →
     (repo_config_get_bool (config (repo st)) "core.useBuiltinFSMonitor").2 ≠ 0 →
     (passes_check pf st →
      returned (fsm_settings__get_mode pf st) = Some FSMONITOR_MODE_IPC)
     ∧ (∀ why, incompatible_reason pf (repo st) = Some why →
        returned (fsm_settings__get_mode pf st)
          = Some FSMONITOR_MODE_INCOMPATIBLE
        ∧ returned (fsm_settings__get_reason pf st) = Some why))
  ∧ (∀ sched ss,
       advice_log (shared (run_session pf sched ss)) = advice_log (shared ss)
       ∨ advice_log (shared (run_session pf sched ss))
         = (advice_log (shared ss) ++ [the_advice])%list).
Proof.
  intros Hone. split; [|by apply session_advice_once].
  intros st Hfresh Hprimary Hrc Hv.
  assert (Hreq : requested st = Request_ipc).
  { unfold requested, alias_requests_ipc. rewrite Hprimary.
    by rewrite bool_decide_eq_true_2. }
  rewrite get_mode_run, get_reason_run. cbn [returned].
  unfold cached. rewrite Hfresh, Hreq. unfold settle, settings_ipc.
  split.
  - intros Hpass%passes_check_iff. by rewrite Hpass.
  - intros why Hwhy. by rewrite Hwhy.
Qed.

Lemma plain_platform_one_is_true def (env : gmap string string) :
  env !! suppress_var = Some "1" →
  git_env_bool plain_platform suppress_var def env ≠ 0.
Proof.
  intros H. cbn [git_env_bool plain_platform]. unfold sample_env_bool.
  rewrite H. done.
Qed.

Lemma C8_alias_true_ipc_advice_once_witness :
  let st := context (Some "/w") (config_of (1, 0) (0, 1) (1, None)) ∅ in
  let ss := mk_session [repo st; repo alias_false_context; repo bare_context]
                       (proc st) in
  let sched := [(0, Call_get_mode); (1, Call_get_mode); (0, Call_get_mode);
                (2, Call_set_ipc); (1, Call_get_reason)]%nat in
  returned (fsm_settings__get_mode plain_platform st) = Some FSMONITOR_MODE_IPC
  ∧ (advice_log (shared (run_session plain_platform sched ss))
       = advice_log (shared ss)
     ∨ advice_log (shared (run_session plain_platform sched ss))
       = (advice_log (shared ss) ++ [the_advice])%list).
Proof.
  intros st ss sched.
  destruct (C8_alias_true_ipc_advice_once plain_platform
              plain_platform_one_is_true) as [Hipc Honce].
  split; [|apply Honce].
  apply (Hipc st); [reflexivity|reflexivity|reflexivity|discriminate|reflexivity].
Defined.

(** * Further properties of the file's functions *)

Lemma incompatible_reason_not_ok pf r why :
  incompatible_reason pf r = Some why → why ≠ FSMONITOR_REASON_OK.
Proof.
  unfold incompatible_reason. destruct (worktree r); [|by intros [= <-]].
  destruct (HAVE_FSMONITOR_OS_SETTINGS pf); [|done].
  destruct (decide _); [|done]. by intros [= <-].
Qed.

Lemma ready_populated pf st s :
  settings_fsmonitor (repo st) = Some s → ready pf st = st ∧ cached pf st = s.
Proof. intros H. unfold ready, cached. by rewrite H. Qed.

(** X1: the settings are resolved once.  After a first [get_mode], the
    three getters return the cached fields and change nothing, whatever
    the configuration, the working directory, the environment and the rest
    of the process state have become. *)
Theorem getters_never_resolve_again pf st m st1 wt' cfg' p' :
  fsm_settings__get_mode pf st = Done m st1 →
  let st2 := mk_state
               (mk_repository wt' cfg' (settings_fsmonitor (repo st1))) p' in
  fsm_settings__get_mode pf st2 = Done m st2
  ∧ (∀ path st', fsm_settings__get_hook_path pf st1 = Done path st' →
     fsm_settings__get_hook_path pf st2 = Done path st2)
  ∧ (∀ why st', fsm_settings__get_reason pf st1 = Done why st' →
     fsm_settings__get_reason pf st2 = Done why st2).
Proof.
  rewrite get_mode_run. intros [= <- <-] st2.
  pose proof (ready_settings pf st) as Hs.
  destruct (ready_populated pf (ready pf st) _ Hs) as [Hr1 Hc1].
  assert (Hs2 : settings_fsmonitor (repo st2) = Some (cached pf st))
    by (subst st2; cbn; by rewrite Hs).
  destruct (ready_populated pf st2 _ Hs2) as [Hr2 Hc2].
  rewrite !get_mode_run, !get_hook_path_run, !get_reason_run.
  rewrite Hr1, Hc1, Hr2, Hc2.
  split; [done|]. split; by intros ? ? [= <- _].
Qed.

Lemma getters_never_resolve_again_witness :
  let st1 := put_settings
               (mk_settings FSMONITOR_MODE_IPC FSMONITOR_REASON_OK None)
               (context (Some "/w") (config_of (0, 1) (1, 0) (1, None)) ∅) in
  let st2 := mk_state
               (mk_repository None (config_of (0, 0) (1, 0) (1, None))
                              (settings_fsmonitor (repo st1)))
               (process_of {["GIT_TEST_FSMONITOR" := "/y/hook"]}) in
  fsm_settings__get_mode plain_platform st2 = Done FSMONITOR_MODE_IPC st2.
Proof.
  intros st1 st2.
  apply (getters_never_resolve_again plain_platform
           (context (Some "/w") (config_of (0, 1) (1, 0) (1, None)) ∅)
           FSMONITOR_MODE_IPC st1 None (config_of (0, 0) (1, 0) (1, None))
           (process_of {["GIT_TEST_FSMONITOR" := "/y/hook"]})).
  vm_compute. reflexivity.
Defined.

(** X6: no exported function dereferences a NULL [r->settings.fsmonitor],
    from any state: a non-empty sequence of exported calls returns or is
    aborted by [BUG], and in both cases the settings are populated
    afterwards and the working directory and configuration are as before. *)
Theorem exported_calls_populate pf cs : ∀ st,
  Forall exported cs → cs ≠ [] →
  ∃ st',
    (run_calls pf cs st = Done tt st'
     ∨ ∃ msg arg, run_calls pf cs st = Bug msg arg st')
    ∧ is_Some (settings_fsmonitor (repo st'))
    ∧ worktree (repo st') = worktree (repo st)
    ∧ config (repo st') = config (repo st).
Proof.
  induction cs as [|c cs IH]; intros st Hcs Hne; [done|].
  apply Forall_cons in Hcs as [Hc Hcs].
  cbn [run_calls]. unfold mbind, M_bind.
  destruct (run_call_exported pf c st Hc)
    as (st1 & [H|(msg & arg & H)] & Hrepo & _); rewrite H.
  - destruct cs as [|c' cs'].
    + exists st1. split; [by left|]. by rewrite Hrepo.
    + destruct (IH st1 Hcs) as (st' & Hout & Hsome & Hwt & Hcfg); [done|].
      exists st'. split; [done|]. split; [done|].
      by rewrite Hwt, Hcfg, Hrepo.
  - exists st1. split; [right; by eauto|]. by rewrite Hrepo.
Qed.

Lemma exported_calls_populate_witness :
  ∃ st',
    (run_calls plain_platform [Call_get_reason; Call_set_hook "/x/hook"]
       bare_context = Done tt st'
     ∨ ∃ msg arg,
         run_calls plain_platform [Call_get_reason; Call_set_hook "/x/hook"]
           bare_context = Bug msg arg st')
    ∧ is_Some (settings_fsmonitor (repo st'))
    ∧ worktree (repo st') = worktree (repo bare_context)
    ∧ config (repo st') = config (repo bare_context).
Proof.
  apply (exported_calls_populate plain_platform
           [Call_get_reason; Call_set_hook "/x/hook"] bare_context).
  - repeat constructor; discriminate.
  - discriminate.
Defined.

(** X7: [check_for_incompatible] reaches [r->settings.fsmonitor] only
    through [set_incompatible].  Called on unpopulated settings it
    dereferences the NULL pointer exactly when the repository is bare or
    the probe rejects it, and otherwise returns 0 leaving the state alone;
    this is why every caller runs [lookup_fsmonitor_settings] first. *)
Theorem check_before_lookup pf st :
  settings_fsmonitor (repo st) = None →
  (worktree (repo st) = None → check_for_incompatible pf st = Fault)
  ∧ (∀ dir, worktree (repo st) = Some dir →
     check_for_incompatible pf st =
       if HAVE_FSMONITOR_OS_SETTINGS pf
       then if decide (fsm_os__incompatible pf dir = FSMONITOR_REASON_OK)
            then Done 0 st else Fault
       else Done 0 st).
Proof.
  intros H. rewrite (check_for_incompatible_fresh pf st H).
  unfold incompatible_reason. split.
  - by intros ->.
  - intros dir ->. destruct (HAVE_FSMONITOR_OS_SETTINGS pf); [|done].
    destruct (decide (_ ≠ _)), (decide (_ = _)); done.
Qed.

Lemma check_before_lookup_witness :
  check_for_incompatible plain_platform bare_context = Fault.
Proof.
  apply (check_before_lookup plain_platform bare_context); reflexivity.
Defined.

(** X8: when lazy resolution emits the deprecation advisory.  From
    unpopulated settings, [get_mode] emits it exactly when the primary key
    is not boolean (unset or a string), the alias key is present, true or
    false, and [GIT_SUPPRESS_USEBUILTINFSMONITOR_ADVICE] does not read as
    true; it then sets that variable to [1].  In every other case the
    process state is left as it was. *)
Theorem advisory_exactly_when pf st :
  settings_fsmonitor (repo st) = None →
  let emits :=
    ((repo_config_get_maybe_bool (config (repo st)) "core.fsmonitor").1 = 1
     ∨ (repo_config_get_maybe_bool (config (repo st)) "core.fsmonitor").1 = -1)
    ∧ (repo_config_get_bool (config (repo st)) "core.useBuiltinFSMonitor").1 = 0
    ∧ git_env_bool pf "GIT_SUPPRESS_USEBUILTINFSMONITOR_ADVICE" 0
        (environ (proc st)) = 0 in
  ∃ m st',
    fsm_settings__get_mode pf st = Done m st'
    ∧ (emits →
       advice_log (proc st') = (advice_log (proc st) ++ [the_advice])%list
       ∧ environ (proc st') =
           <["GIT_SUPPRESS_USEBUILTINFSMONITOR_ADVICE" := "1"]>
             (environ (proc st))
       ∧ error_log (proc st') = error_log (proc st))
    ∧ (¬ emits → proc st' = proc st).
Proof.
  intros Hfresh emits. rewrite get_mode_run. eexists _, _. split; [done|].
  unfold ready. rewrite Hfresh. unfold resolved. cbn [proc].
  destruct (advises pf st) eqn:E.
  - assert emits as Hemits.
    { unfold advises, alias_consulted, alias_advises in E.
      apply andb_prop in E as [E1 [E2 E3]%andb_prop].
      apply bool_decide_eq_true in E1, E2, E3. done. }
    split; [done|]. by intros [].
  - assert (¬ emits) as Hquiet.
    { intros (H1 & H2 & H3).
      unfold advises, alias_consulted, alias_advises in E. fold suppress_var in H3.
      by rewrite !bool_decide_eq_true_2 in E. }
    split; [by intros ?|done].
Qed.

Lemma advisory_exactly_when_witness :
  ∃ m st',
    fsm_settings__get_mode plain_platform alias_false_context = Done m st'
    ∧ advice_log (proc st') = [the_advice].
Proof.
  destruct (advisory_exactly_when plain_platform alias_false_context eq_refl)
    as (m & st' & Hrun & Hemits & _).
  exists m, st'. split; [exact Hrun|].
  apply Hemits. split; [left; reflexivity|]. split; reflexivity.
Defined.

(** X9: [core.fsmonitor] set to boolean true ends resolution in
    [fsm_settings__set_ipc]: the settings are IPC with reason Ok, or
    Incompatible with the reason of the check when the context fails it,
    whatever the alias key and the environment hold; no advisory is
    emitted and the process state is unchanged. *)
Theorem primary_true_resolution pf st :
  settings_fsmonitor (repo st) = None →
  (repo_config_get_maybe_bool (config (repo st)) "core.fsmonitor").1 = 0 →
  (repo_config_get_maybe_bool (config (repo st)) "core.fsmonitor").2 ≠ 0 →
  ∃ m st',
    fsm_settings__get_mode pf st = Done m st'
    ∧ proc st' = proc st
    ∧ settings_fsmonitor (repo st') =
        Some match incompatible_reason pf (repo st) with
             | None => mk_settings FSMONITOR_MODE_IPC FSMONITOR_REASON_OK None
             | Some why => mk_settings FSMONITOR_MODE_INCOMPATIBLE why None
             end.
Proof.
  intros Hfresh Hrc Hv. rewrite get_mode_run. eexists _, _. split; [done|].
  unfold ready. rewrite Hfresh. unfold resolved. cbn [proc repo with_settings
    settings_fsmonitor].
  unfold advises, alias_consulted, requested. rewrite Hrc.
  rewrite bool_decide_eq_false_2 by lia. rewrite decide_True by done.
  split; [done|]. unfold settle, settings_ipc.
  by destruct (incompatible_reason pf (repo st)).
Qed.

Lemma primary_true_resolution_witness :
  ∃ m st',
    fsm_settings__get_mode probing_platform
      (context (Some "/mnt/remote") (config_of (0, 1) (0, 0) (1, None))
               {["GIT_TEST_FSMONITOR" := "/y/hook"]}) = Done m st'
    ∧ proc st' = process_of {["GIT_TEST_FSMONITOR" := "/y/hook"]}
    ∧ settings_fsmonitor (repo st') =
        Some (mk_settings FSMONITOR_MODE_INCOMPATIBLE FSMONITOR_REASON_REMOTE
                          None).
Proof.
  apply (primary_true_resolution probing_platform
           (context (Some "/mnt/remote") (config_of (0, 1) (0, 0) (1, None))
                    {["GIT_TEST_FSMONITOR" := "/y/hook"]}));
    [reflexivity | reflexivity | discriminate].
Defined.

(** X10: the alias [true] wins over a hook path in [core.fsmonitor].  With
    the primary key an arbitrary string and the alias key true, the
    pathname of the primary key is never used: the settings are IPC, or
    Incompatible when the context fails the check, for every pathname. *)
Theorem alias_true_overrides_hook_path pf st :
  settings_fsmonitor (repo st) = None →
  (repo_config_get_maybe_bool (config (repo st)) "core.fsmonitor").1 = -1 →
  (repo_config_get_bool (config (repo st)) "core.useBuiltinFSMonitor").1 = 0 →
  (repo_config_get_bool (config (repo st)) "core.useBuiltinFSMonitor").2 ≠ 0 →
  final_settings (fsm_settings__get_mode pf st) =
    Some match incompatible_reason pf (repo st) with
         | None => mk_settings FSMONITOR_MODE_IPC FSMONITOR_REASON_OK None
         | Some why => mk_settings FSMONITOR_MODE_INCOMPATIBLE why None
         end.
Proof.
  intros Hfresh Hprimary Hrc Hv. rewrite get_mode_run.
  unfold final_settings. cbn [final_state mbind option_bind].
  rewrite ready_settings. f_equal.
  unfold cached, requested, alias_requests_ipc. rewrite Hfresh, Hprimary.
  rewrite bool_decide_eq_true_2 by done.
  unfold settle, settings_ipc.
  by destruct (incompatible_reason pf (repo st)).
Qed.

Lemma alias_true_overrides_hook_path_witness :
  final_settings (fsm_settings__get_mode plain_platform
    (context (Some "/w") (config_of (-1, 0) (0, 1) (0, Some "/x/hook")) ∅)) =
  Some (mk_settings FSMONITOR_MODE_IPC FSMONITOR_REASON_OK None).
Proof.
  apply (alias_true_overrides_hook_path plain_platform
    (context (Some "/w") (config_of (-1, 0) (0, 1) (0, Some "/x/hook")) ∅));
    [reflexivity | reflexivity | reflexivity | discriminate].
Defined.

(** X11: where the hook path comes from.  When the alias does not ask for
    IPC (it is absent or false), an unset primary key makes
    [GIT_TEST_FSMONITOR] the hook path, and a primary key that is a string
    makes its pathname the hook path, the environment variable being
    ignored; a missing or empty value, or a failed pathname lookup, leaves
    the default settings.  A return code of the maybe-bool accessor other
    than 0, 1 and -1 leaves the default settings too. *)
Theorem hook_path_source pf st :
  settings_fsmonitor (repo st) = None →
  alias_requests_ipc (config (repo st)) = false →
  (repo_config_get_maybe_bool (config (repo st)) "core.fsmonitor").1 ≠ 0 →
  let const_str :=
    match (repo_config_get_maybe_bool (config (repo st)) "core.fsmonitor").1
    with
    | 1 => environ (proc st) !! "GIT_TEST_FSMONITOR"
    | -1 =>
        if decide ((repo_config_get_pathname (config (repo st))
                      "core.fsmonitor").1 = 0)
        then (repo_config_get_pathname (config (repo st)) "core.fsmonitor").2
        else None
    | _ => None
    end in
  final_settings (fsm_settings__get_mode pf st) =
    Some match const_str with
         | Some path =>
             if decide (path = "") then settings_default
             else match incompatible_reason pf (repo st) with
                  | None =>
                      mk_settings FSMONITOR_MODE_HOOK FSMONITOR_REASON_OK
                                  (Some path)
                  | Some why =>
                      mk_settings FSMONITOR_MODE_INCOMPATIBLE why None
                  end
         | None => settings_default
         end.
Proof.
  intros Hfresh Halias Hrc const_str. rewrite get_mode_run.
  unfold final_settings. cbn [final_state mbind option_bind].
  rewrite ready_settings. f_equal.
  unfold cached, requested. rewrite Hfresh, Halias. subst const_str.
  assert (Htail : ∀ o,
    settle pf (repo st) (request_of_string o) =
    match o with
    | Some path =>
        if decide (path = "") then settings_default
        else match incompatible_reason pf (repo st) with
             | None =>
                 mk_settings FSMONITOR_MODE_HOOK FSMONITOR_REASON_OK (Some path)
             | Some why => mk_settings FSMONITOR_MODE_INCOMPATIBLE why None
             end
    | None => settings_default
    end).
  { intros [path|]; [|done]. unfold request_of_string, settle, settings_hook.
    destruct (decide (path = "")); reflexivity. }
  destruct (repo_config_get_maybe_bool _ _).1 as [|[q|q|]|[q|q|]];
    try done; try apply Htail.
  destruct (decide (_ ≠ 0)), (decide (_ = 0)); try done; apply Htail.
Qed.

Lemma hook_path_source_witness :
  final_settings (fsm_settings__get_mode plain_platform
    (context (Some "/w") (config_of (-1, 0) (1, 0) (0, Some "/x/hook"))
             {["GIT_TEST_FSMONITOR" := "/y/hook"]})) =
  Some (mk_settings FSMONITOR_MODE_HOOK FSMONITOR_REASON_OK (Some "/x/hook")).
Proof.
  apply (hook_path_source plain_platform
    (context (Some "/w") (config_of (-1, 0) (1, 0) (0, Some "/x/hook"))
             {["GIT_TEST_FSMONITOR" := "/y/hook"]}));
    [reflexivity | reflexivity | discriminate].
Defined.

(** X12: of the environment, only [GIT_TEST_FSMONITOR] bears on the
    resolved settings: two environments that agree on it give the same
    settings (the suppression variable changes the advice output only). *)
Theorem only_test_variable_matters pf st env' :
  settings_fsmonitor (repo st) = None →
  env' !! "GIT_TEST_FSMONITOR" = environ (proc st) !! "GIT_TEST_FSMONITOR" →
  final_settings (fsm_settings__get_mode pf (with_environ st env')) =
    final_settings (fsm_settings__get_mode pf st).
Proof.
  intros Hfresh Henv. rewrite !get_mode_run.
  unfold final_settings. cbn [final_state mbind option_bind].
  rewrite !ready_settings. f_equal.
  unfold cached. cbn [with_environ with_proc repo]. rewrite Hfresh.
  unfold requested. cbn [with_environ with_proc repo proc environ].
  by rewrite Henv.
Qed.

Lemma only_test_variable_matters_witness :
  final_settings (fsm_settings__get_mode plain_platform
    (with_environ alias_false_context
       {["GIT_TEST_FSMONITOR" := "/y/hook";
         "GIT_SUPPRESS_USEBUILTINFSMONITOR_ADVICE" := "1"]})) =
  final_settings (fsm_settings__get_mode plain_platform alias_false_context).
Proof.
  apply (only_test_variable_matters plain_platform alias_false_context).
  - reflexivity.
  - vm_compute. reflexivity.
Defined.





(** X15: once the settings are populated, no function of the file reads or
    writes the environment or emits the advisory: every call returns (or
    aborts through [BUG]) with the environment and the advice output as
    they were.  The advisory can come from the first call on a repository
    only. *)
Theorem populated_calls_are_quiet pf c st s :
  settings_fsmonitor (repo st) = Some s →
  ∃ st',
    (run_call pf c st = Done tt st'
     ∨ ∃ msg arg, run_call pf c st = Bug msg arg st')
    ∧ environ (proc st') = environ (proc st)
    ∧ advice_log (proc st') = advice_log (proc st).
Proof.
  intros Hs. destruct (ready_populated pf st s Hs) as [Hr _].
  destruct (decide (c = Call_check_for_incompatible)) as [->|Hex].
  - rewrite (run_call_check pf st s Hs). eexists. split; [by left|done].
  - destruct (run_call_exported pf c st Hex)
      as (st' & Hout & _ & Henv & Hadv).
    rewrite Hr in Henv, Hadv. by exists st'.
Qed.

Lemma populated_calls_are_quiet_witness :
  let st := put_settings settings_default
              (with_proc alias_false_context
                         (advised (proc alias_false_context))) in
  ∃ st',
    (run_call plain_platform Call_set_ipc st = Done tt st'
     ∨ ∃ msg arg, run_call plain_platform Call_set_ipc st = Bug msg arg st')
    ∧ environ (proc st') = environ (proc st)
    ∧ advice_log (proc st') = advice_log (proc st).
Proof.
  intros st.
  apply (populated_calls_are_quiet plain_platform Call_set_ipc st
           settings_default).
  reflexivity.
Defined.

(** X16: [set_ipc], [set_hook] and [set_disabled] are idempotent, from
    every state: repeating the call right away changes nothing. *)
Theorem mutators_are_idempotent pf c st st1 :
  mutator c →
  run_call pf c st = Done tt st1 →
  run_call pf c st1 = Done tt st1.
Proof.
  intros Hc Hrun.
  assert (Hinc : ∀ s, incompatible_reason pf (repo (put_settings s (ready pf st)))
                      = incompatible_reason pf (repo st)).
  { intros s. unfold incompatible_reason.
    cbn [put_settings with_repo repo with_settings worktree].
    by rewrite ready_worktree. }
  assert (Hput : ∀ s, put_settings s (put_settings s (ready pf st))
                      = put_settings s (ready pf st)) by done.
  destruct c; try done; cbn [run_call] in *.
  - rewrite set_ipc_run in Hrun. injection Hrun as <-.
    rewrite set_ipc_run.
    destruct (ready_populated pf (put_settings
      (settings_ipc pf (repo st) (cached pf st)) (ready pf st)) _ eq_refl)
      as [-> ->].
    unfold settings_ipc at 1. rewrite Hinc. unfold settings_ipc.
    by destruct (incompatible_reason pf (repo st)).
  - rewrite set_hook_run in Hrun. injection Hrun as <-.
    rewrite set_hook_run.
    destruct (ready_populated pf (put_settings
      (settings_hook pf (repo st) path (cached pf st)) (ready pf st)) _ eq_refl)
      as [-> ->].
    unfold settings_hook at 1. rewrite Hinc. unfold settings_hook.
    by destruct (incompatible_reason pf (repo st)).
  - rewrite set_disabled_run in Hrun. injection Hrun as <-.
    rewrite set_disabled_run.
    by destruct (ready_populated pf (put_settings settings_default
                                       (ready pf st)) _ eq_refl) as [-> _].
Qed.

Lemma mutators_are_idempotent_witness :
  let st1 := put_settings
               (mk_settings FSMONITOR_MODE_HOOK FSMONITOR_REASON_OK
                            (Some "/x/hook")) plain_context in
  run_call plain_platform (Call_set_hook "/x/hook") st1 = Done tt st1.
Proof.
  intros st1.
  apply (mutators_are_idempotent plain_platform (Call_set_hook "/x/hook")
           plain_context st1).
  - exact I.
  - vm_compute. reflexivity.
Defined.

(** X17: the cycle of [lookup_fsmonitor_settings] with [set_ipc] and
    [set_hook] is two calls deep at most.  With room for two nested calls
    or more, lazy resolution returns from every state, leaves the settings
    populated, and a second run is a no-op; the result does not depend on
    how much more room there is. *)
Theorem call_cycle_is_bounded pf n st :
  (2 ≤ n)%nat →
  ∃ st',
    lookup_fsmonitor_settings_fuel pf n st = Done tt st'
    ∧ is_Some (settings_fsmonitor (repo st'))
    ∧ lookup_fsmonitor_settings_fuel pf n st' = Done tt st'
    ∧ lookup_fsmonitor_settings_fuel pf 2 st = Done tt st'.
Proof.
  intros Hn. exists (ready pf st).
  rewrite !(lookup_fuel_enough pf n) by done.
  fold call_depth. fold (lookup_fsmonitor_settings pf).
  rewrite !lookup_run, ready_ready, ready_settings. by eauto.
Qed.

Lemma call_cycle_is_bounded_witness :
  ∃ st',
    lookup_fsmonitor_settings_fuel plain_platform 5 alias_false_context
      = Done tt st'
    ∧ is_Some (settings_fsmonitor (repo st'))
    ∧ lookup_fsmonitor_settings_fuel plain_platform 5 st' = Done tt st'
    ∧ lookup_fsmonitor_settings_fuel plain_platform 2 alias_false_context
      = Done tt st'.
Proof.
  apply (call_cycle_is_bounded plain_platform 5 alias_false_context). lia.
Defined.

(** X18: after [set_disabled], [error_if_incompatible] returns 0 and
    reports nothing, on every repository, bare and rejected ones
    included. *)
Theorem set_disabled_silences_error pf st :
  ∃ st1,
    fsm_settings__set_disabled pf st = Done tt st1
    ∧ fsm_settings__error_if_incompatible pf st1 = Done 0 st1.
Proof.
  rewrite set_disabled_run. eexists. split; [done|].
  rewrite error_if_incompatible_run.
  by destruct (ready_populated pf (put_settings settings_default (ready pf st))
                 _ eq_refl) as [-> ->].
Qed.


(** * Calls under a changing answer of the check *)

Lemma coherent_settle P pf st :
  (∀ path, path ≠ "" → P path) →
  coherent P (settle pf (repo st) (requested st)).
Proof.
  intros HP. pose proof (requested_hook_nonempty st) as Hne.
  unfold coherent, settle, settings_ipc, settings_hook.
  destruct (requested st) as [| |path];
    destruct (incompatible_reason pf (repo st)) as [why|] eqn:Hinc;
    cbn; try apply incompatible_reason_not_ok in Hinc;
    (split; [|by eauto]); try done.
  intros ? [= <-]. by apply HP, Hne.
Qed.

Lemma coherent_after P pf r c s :
  coherent P s → hook_path_ok P c →
  coherent P (settings_after pf r c s).
Proof.
  intros [Hpath Hmode] Hc. unfold coherent.
  destruct c; cbn [settings_after hook_path_ok] in *; try done;
    unfold settings_ipc, settings_hook, settings_default;
    destruct (incompatible_reason pf r) as [why|] eqn:Hinc;
    cbn; try apply incompatible_reason_not_ok in Hinc;
    try done; (split; [|by eauto]); try done.
  by intros ? [= <-].
Qed.

Lemma coherent_cached P pf st :
  (∀ path, path ≠ "" → P path) →
  coherent_state P st → coherent P (cached pf st).
Proof.
  unfold coherent_state, cached. intros HP.
  destruct (settings_fsmonitor (repo st)); [done|].
  intros _. by apply coherent_settle.
Qed.

Lemma coherent_run_call P pf c st st' :
  (∀ path, path ≠ "" → P path) →
  coherent_state P st → hook_path_ok P c →
  run_call pf c st = Done tt st' →
  coherent_state P st'.
Proof.
  intros HP Hinv Hc Hrun.
  destruct (decide (c = Call_check_for_incompatible)) as [->|Hex].
  - destruct (settings_fsmonitor (repo st)) as [s|] eqn:E.
    + rewrite (run_call_check pf st s E) in Hrun. injection Hrun as <-.
      unfold coherent_state in *. rewrite E in Hinv. cbn.
      by apply (coherent_after P pf (repo st) Call_check_for_incompatible s).
    + destruct (run_call_check_fresh pf st E) as [H|H];
        rewrite H in Hrun; [|done].
      by injection Hrun as <-.
  - destruct (run_call_exported pf c st Hex) as (st2 & Hout & Hrepo & _).
    assert (st2 = st') as ->.
    { destruct Hout as [H|(msg & arg & H)]; rewrite H in Hrun; congruence. }
    unfold coherent_state. rewrite Hrepo. cbn.
    apply (coherent_after P pf (repo st) c); [|done].
    by apply coherent_cached.
Qed.

Lemma coherent_run_history P pf h : ∀ st st',
  (∀ path, path ≠ "" → P path) →
  coherent_state P st → Forall (λ x, hook_path_ok P (step_call x)) h →
  run_history pf h st = Done tt st' →
  coherent_state P st'.
Proof.
  induction h as [|x h IH]; intros st st' HP Hinv Hh Hrun.
  - cbn in Hrun. unfold mret, M_ret in Hrun. by injection Hrun as <-.
  - apply Forall_cons in Hh as [Hx Hh].
    cbn [run_history] in Hrun. unfold mbind, M_bind in Hrun.
    destruct (run_step pf x st) as [[] st1| | |] eqn:E; try done.
    apply (IH st1 st'); try done.
    unfold run_step in E.
    by apply (coherent_run_call P _ _ _ _ HP) in E.
Qed.

(** X2: what the cached settings satisfy after every history of calls
    from unpopulated settings, whatever the working directory and the probe
    are at each call ([set_hook] being called with non-empty paths): mode
    Incompatible comes with a reason other than Ok; mode Disabled with
    reason Ok and no hook path; mode IPC with no hook path; mode Hook with
    a hook path; and a stored hook path is never empty. *)
Theorem history_coherent pf h st0 st s :
  settings_fsmonitor (repo st0) = None →
  Forall (λ x, hook_path_ok (λ path, path ≠ "") (step_call x)) h →
  run_history pf h st0 = Done tt st →
  settings_fsmonitor (repo st) = Some s →
  (∀ path, hook_path s = Some path → path ≠ "")
  ∧ match mode s with
    | FSMONITOR_MODE_INCOMPATIBLE => reason s ≠ FSMONITOR_REASON_OK
    | FSMONITOR_MODE_DISABLED =>
        reason s = FSMONITOR_REASON_OK ∧ hook_path s = None
    | FSMONITOR_MODE_IPC => hook_path s = None
    | FSMONITOR_MODE_HOOK => is_Some (hook_path s)
    end.
Proof.
  intros Hfresh Hh Hrun Hs.
  assert (Hinv : coherent_state (λ path, path ≠ "") st).
  { apply (coherent_run_history _ pf h st0 st); try done.
    unfold coherent_state. by rewrite Hfresh. }
  unfold coherent_state in Hinv. by rewrite Hs in Hinv.
Qed.

Lemma history_coherent_witness :
  let h := [mk_step (Some "/w") accepting_probe (Call_set_hook "/x/hook");
            mk_step (Some "/w") failing_probe Call_set_ipc;
            mk_step (Some "/w") accepting_probe Call_set_ipc] in
  let s := mk_settings FSMONITOR_MODE_IPC FSMONITOR_REASON_ERROR None in
  run_history probe_accepts_platform h plain_context
    = Done tt (put_settings s plain_context)
  ∧ hook_path s = None.
Proof.
  intros h s.
  assert (Hrun : run_history probe_accepts_platform h plain_context
                 = Done tt (put_settings s plain_context))
    by (vm_compute; reflexivity).
  split; [exact Hrun|].
  apply (history_coherent probe_accepts_platform h plain_context
           (put_settings s plain_context) s).
  - reflexivity.
  - repeat constructor; discriminate.
  - exact Hrun.
  - reflexivity.
Defined.

(** C3 fails on the code: [fsm_settings__set_hook] writes the mode and the
    hook path and never the reason.  On the checkout [/w], [set_ipc] called
    while the probe fails pins Incompatible with reason Error; [set_hook]
    called next, while the probe accepts, passes the incompatibility check
    and returns with mode Hook and the given path, and the reason is still
    Error, not Ok.  [error_if_incompatible] then reports the repository as
    incompatible (returns 1) although [get_mode] answers Hook. *)
Theorem C3_set_hook_keeps_stale_reason :
  run_call probe_fails_platform Call_set_ipc plain_context
    = Done tt pinned_context
  ∧ passes_check probe_accepts_platform pinned_context
  ∧ ∃ st,
      fsm_settings__set_hook probe_accepts_platform "/x/hook" pinned_context
        = Done tt st
      ∧ settings_fsmonitor (repo st) =
          Some (mk_settings FSMONITOR_MODE_HOOK FSMONITOR_REASON_ERROR
                            (Some "/x/hook"))
      ∧ fsm_settings__get_mode probe_accepts_platform st
          = Done FSMONITOR_MODE_HOOK st
      ∧ fsm_settings__error_if_incompatible probe_accepts_platform st
          = Done 1 (with_error st (msg_error, Some "/w")).
Proof.
  split; [vm_compute; reflexivity|]. split; [vm_compute; reflexivity|].
  exists (put_settings
            (mk_settings FSMONITOR_MODE_HOOK FSMONITOR_REASON_ERROR
                         (Some "/x/hook")) plain_context).
  repeat split; vm_compute; reflexivity.
Qed.

(** C4, as the spec states it, fails: the pin is not terminal.  On the
    checkout [/w] pinned Incompatible with reason Error while the probe
    failed, [set_ipc] called while the probe accepts runs the check again,
    passes it and sets mode IPC; [set_hook] likewise sets mode Hook. *)
Lemma C4_pin_counterexample :
  run_call probe_fails_platform Call_set_ipc plain_context
    = Done tt pinned_context
  ∧ (mode <$> final_settings
       (fsm_settings__set_ipc probe_accepts_platform pinned_context))
    = Some FSMONITOR_MODE_IPC
  ∧ (mode <$> final_settings
       (fsm_settings__set_hook probe_accepts_platform "/x/hook"
          pinned_context))
    = Some FSMONITOR_MODE_HOOK
  ∧ ¬ pin_is_terminal probe_accepts_platform pinned_context.
Proof.
  repeat split; try (vm_compute; reflexivity).
  intros H. destruct (H _ eq_refl eq_refl) as [H1 _].
  vm_compute in H1. discriminate.
Qed.

(** C4, amended: [set_ipc] and [set_hook] run the incompatibility check
    again on a context pinned Incompatible.  While the check fails, the
    mode stays Incompatible, the hook path is left as it was and the reason
    is the one the check reports now; when that is the pinned reason, the
    call leaves the whole state as it was.  When the check passes, the call
    goes through: the mode becomes IPC with no hook path, or Hook with the
    given path. *)
Theorem C4_pin_follows_check pf st s :
  settings_fsmonitor (repo st) = Some s →
  mode s = FSMONITOR_MODE_INCOMPATIBLE →
  (∀ st1, check_for_incompatible pf st = Done 1 st1 →
     ∃ why,
       why ≠ FSMONITOR_REASON_OK
       ∧ st1 = put_settings
                 (mk_settings FSMONITOR_MODE_INCOMPATIBLE why (hook_path s)) st
       ∧ fsm_settings__set_ipc pf st = Done tt st1
       ∧ (∀ path, fsm_settings__set_hook pf path st = Done tt st1)
       ∧ (reason s = why → st1 = st))
  ∧ (passes_check pf st →
     (∃ st1, fsm_settings__set_ipc pf st = Done tt st1
             ∧ (mode <$> settings_fsmonitor (repo st1))
               = Some FSMONITOR_MODE_IPC
             ∧ (hook_path <$> settings_fsmonitor (repo st1)) = Some None)
     ∧ ∀ path,
         ∃ st1, fsm_settings__set_hook pf path st = Done tt st1
                ∧ (mode <$> settings_fsmonitor (repo st1))
                  = Some FSMONITOR_MODE_HOOK
                ∧ (hook_path <$> settings_fsmonitor (repo st1))
                  = Some (Some path)).
Proof.
  intros Hs Hmode.
  destruct (ready_populated pf st s Hs) as [Hr Hc].
  split.
  - intros st1. rewrite (check_for_incompatible_spec pf st s Hs).
    destruct (incompatible_reason pf (repo st)) as [why|] eqn:Hinc; [|done].
    intros [= <-]. exists why.
    split; [by apply (incompatible_reason_not_ok pf (repo st))|].
    split; [done|].
    split; [|split].
    + rewrite set_ipc_run, Hr, Hc. unfold settings_ipc. by rewrite Hinc.
    + intros path. rewrite set_hook_run, Hr, Hc. unfold settings_hook.
      by rewrite Hinc.
    + intros <-. apply put_settings_id. rewrite Hs. f_equal.
      destruct s as [m r h]. cbn in *. by subst.
  - intros Hpass%passes_check_iff. split; [|intros path].
    + rewrite set_ipc_run, Hr, Hc. eexists. split; [done|].
      unfold settings_ipc. by rewrite Hpass.
    + rewrite set_hook_run, Hr, Hc. eexists. split; [done|].
      unfold settings_hook. by rewrite Hpass.
Qed.

Lemma C4_pin_follows_check_witness :
  fsm_settings__set_ipc probe_fails_platform pinned_context
    = Done tt pinned_context
  ∧ ∀ path,
      fsm_settings__set_hook probe_fails_platform path pinned_context
        = Done tt pinned_context.
Proof.
  destruct (C4_pin_follows_check probe_fails_platform pinned_context
              (mk_settings FSMONITOR_MODE_INCOMPATIBLE FSMONITOR_REASON_ERROR
                           None) eq_refl eq_refl) as [Hfail _].
  destruct (Hfail pinned_context) as (why & _ & _ & Hipc & Hhook & _).
  - vm_compute. reflexivity.
  - split; [exact Hipc|exact Hhook].
Defined.

(** C5 fails on the code: [set_incompatible] writes the mode and the reason
    and leaves the hook path, which [set_ipc], [set_hook] and
    [set_disabled] all free.  On the checkout [/w], [set_hook] called with
    [/x/hook] while the probe accepts gives mode Hook; [set_ipc] called
    next, while the probe fails, pins Incompatible and the hook path is
    still [/x/hook]: [get_hook_path] returns it although the mode is not
    Hook. *)
Theorem C5_pin_keeps_hook_path :
  settings_fsmonitor (repo plain_context) = None
  ∧ run_call probe_accepts_platform (Call_set_hook "/x/hook") plain_context
    = Done tt hooked_context
  ∧ ∃ st,
      run_call probe_fails_platform Call_set_ipc hooked_context = Done tt st
      ∧ settings_fsmonitor (repo st) =
          Some (mk_settings FSMONITOR_MODE_INCOMPATIBLE FSMONITOR_REASON_ERROR
                            (Some "/x/hook"))
      ∧ fsm_settings__get_mode probe_fails_platform st
          = Done FSMONITOR_MODE_INCOMPATIBLE st
      ∧ fsm_settings__get_hook_path probe_fails_platform st
          = Done (Some "/x/hook") st.
Proof.
  split; [reflexivity|]. split; [vm_compute; reflexivity|].
  exists (put_settings
            (mk_settings FSMONITOR_MODE_INCOMPATIBLE FSMONITOR_REASON_ERROR
                         (Some "/x/hook")) plain_context).
  repeat split; vm_compute; reflexivity.
Qed.

(** X3: an enabling call on a context that passes the incompatibility
    check, from every state: [set_ipc] returns with mode IPC and the hook
    path freed, [set_hook] with mode Hook and the given path.  Neither
    writes the reason: it is left as it was, and is Ok when the settings
    were not populated. *)
Theorem enabling_call_on_passing_context pf st :
  passes_check pf st →
  let why := match settings_fsmonitor (repo st) with
             | Some s => reason s
             | None => FSMONITOR_REASON_OK
             end in
  (∃ st', fsm_settings__set_ipc pf st = Done tt st'
          ∧ settings_fsmonitor (repo st') =
              Some (mk_settings FSMONITOR_MODE_IPC why None))
  ∧ ∀ path,
      ∃ st', fsm_settings__set_hook pf path st = Done tt st'
             ∧ settings_fsmonitor (repo st') =
                 Some (mk_settings FSMONITOR_MODE_HOOK why (Some path)).
Proof.
  intros Hpass%passes_check_iff why.
  assert (Hwhy : reason (cached pf st) = why).
  { subst why. unfold cached.
    destruct (settings_fsmonitor (repo st)); [done|].
    unfold settle, settings_ipc, settings_hook. rewrite Hpass.
    by destruct (requested st). }
  split; [|intros path].
  - rewrite set_ipc_run. eexists. split; [done|].
    cbn [put_settings with_repo with_settings repo settings_fsmonitor].
    unfold settings_ipc. by rewrite Hpass, Hwhy.
  - rewrite set_hook_run. eexists. split; [done|].
    cbn [put_settings with_repo with_settings repo settings_fsmonitor].
    unfold settings_hook. by rewrite Hpass, Hwhy.
Qed.

Lemma enabling_call_on_passing_context_witness :
  ∃ st', fsm_settings__set_ipc probe_accepts_platform hooked_context
           = Done tt st'
         ∧ settings_fsmonitor (repo st') =
             Some (mk_settings FSMONITOR_MODE_IPC FSMONITOR_REASON_OK None).
Proof.
  apply (enabling_call_on_passing_context probe_accepts_platform
           hooked_context).
  reflexivity.
Defined.

(** X4: on a build with the platform probe, when the probe answers a
    reason other than Ok for the working directory, [set_ipc] and
    [set_hook] pin mode Incompatible with exactly that reason, from every
    state.  The requested path is not stored, and the hook path is left as
    it was ([set_incompatible] does not free it); it is NULL when the
    settings were not populated. *)
Theorem probe_reason_is_pinned pf st dir c :
  worktree (repo st) = Some dir →
  HAVE_FSMONITOR_OS_SETTINGS pf = true →
  fsm_os__incompatible pf dir ≠ FSMONITOR_REASON_OK →
  enabler c →
  ∃ st', run_call pf c st = Done tt st'
         ∧ settings_fsmonitor (repo st') =
             Some (mk_settings FSMONITOR_MODE_INCOMPATIBLE
                     (fsm_os__incompatible pf dir)
                     (match settings_fsmonitor (repo st) with
                      | Some s => hook_path s
                      | None => None
                      end)).
Proof.
  intros Hwt Hhave Hprobe Hc.
  assert (Hinc : incompatible_reason pf (repo st)
                 = Some (fsm_os__incompatible pf dir)).
  { unfold incompatible_reason. rewrite Hwt, Hhave. by rewrite decide_True. }
  assert (Hhook : hook_path (cached pf st) =
                  match settings_fsmonitor (repo st) with
                  | Some s => hook_path s
                  | None => None
                  end).
  { unfold cached. destruct (settings_fsmonitor (repo st)); [done|].
    unfold settle, settings_ipc, settings_hook. rewrite Hinc.
    by destruct (requested st). }
  destruct c; try done; cbn [run_call].
  - rewrite set_ipc_run. eexists. split; [done|].
    cbn [put_settings with_repo with_settings repo settings_fsmonitor].
    unfold settings_ipc. by rewrite Hinc, Hhook.
  - rewrite set_hook_run. eexists. split; [done|].
    cbn [put_settings with_repo with_settings repo settings_fsmonitor].
    unfold settings_hook. by rewrite Hinc, Hhook.
Qed.

Lemma probe_reason_is_pinned_witness :
  ∃ st', run_call probe_fails_platform (Call_set_hook "/z/hook")
           hooked_context = Done tt st'
         ∧ settings_fsmonitor (repo st') =
             Some (mk_settings FSMONITOR_MODE_INCOMPATIBLE
                               FSMONITOR_REASON_ERROR (Some "/x/hook")).
Proof.
  apply (probe_reason_is_pinned probe_fails_platform hooked_context "/w"
           (Call_set_hook "/z/hook")).
  - reflexivity.
  - reflexivity.
  - discriminate.
  - exact I.
Defined.

(** X5: the override of [set_disabled] does not outlast an enabling call
    on a repository that fails the incompatibility check.  From every
    state, [set_disabled] gives the default settings, and a following
    [set_ipc] or [set_hook], made while the check fails, pins Incompatible
    again, with the reason of the check and no hook path. *)
Theorem set_disabled_override_is_undone pf st c :
  ¬ passes_check pf st →
  enabler c →
  ∃ st1 st2 why,
    fsm_settings__set_disabled pf st = Done tt st1
    ∧ settings_fsmonitor (repo st1) = Some settings_default
    ∧ check_for_incompatible pf st1 = Done 1 st2
    ∧ run_call pf c st1 = Done tt st2
    ∧ settings_fsmonitor (repo st2) =
        Some (mk_settings FSMONITOR_MODE_INCOMPATIBLE why None)
    ∧ why ≠ FSMONITOR_REASON_OK.
Proof.
  rewrite passes_check_iff. intros Hfail Hc.
  destruct (incompatible_reason pf (repo st)) as [why|] eqn:Hinc; [|done].
  set (st1 := put_settings settings_default (ready pf st)).
  assert (Hs1 : settings_fsmonitor (repo st1) = Some settings_default) by done.
  destruct (ready_populated pf st1 _ Hs1) as [Hr1 Hc1].
  assert (Hinc1 : incompatible_reason pf (repo st1) = Some why).
  { unfold incompatible_reason in *. subst st1.
    cbn [put_settings with_repo repo with_settings worktree].
    by rewrite ready_worktree. }
  exists st1,
    (put_settings (mk_settings FSMONITOR_MODE_INCOMPATIBLE why None) st1), why.
  rewrite set_disabled_run. split; [done|]. split; [done|].
  split; [|split; [|split]].
  - rewrite (check_for_incompatible_spec pf st1 _ Hs1). by rewrite Hinc1.
  - destruct c; try done; cbn [run_call].
    + rewrite set_ipc_run, Hr1, Hc1. unfold settings_ipc. by rewrite Hinc1.
    + rewrite set_hook_run, Hr1, Hc1. unfold settings_hook. by rewrite Hinc1.
  - done.
  - by apply (incompatible_reason_not_ok pf (repo st)).
Qed.

Lemma set_disabled_override_is_undone_witness :
  ∃ st1 st2 why,
    fsm_settings__set_disabled plain_platform bare_context = Done tt st1
    ∧ settings_fsmonitor (repo st1) = Some settings_default
    ∧ check_for_incompatible plain_platform st1 = Done 1 st2
    ∧ run_call plain_platform Call_set_ipc st1 = Done tt st2
    ∧ settings_fsmonitor (repo st2) =
        Some (mk_settings FSMONITOR_MODE_INCOMPATIBLE why None)
    ∧ why ≠ FSMONITOR_REASON_OK.
Proof.
  apply (set_disabled_override_is_undone plain_platform bare_context
           Call_set_ipc).
  - vm_compute. discriminate.
  - exact I.
Defined.

(** X13: how [error_if_incompatible] relates to [get_mode], after every
    history of calls from unpopulated settings, whatever the working
    directory and the probe were at each call.  When the mode is
    Incompatible it never returns 0: it reports once and returns 1, or
    aborts through [BUG] on a reason outside the [switch].  When the mode
    is Disabled it returns 0 and reports nothing. *)
Theorem error_follows_mode pf h st0 st :
  settings_fsmonitor (repo st0) = None →
  run_history pf h st0 = Done tt st →
  ∃ m st1,
    fsm_settings__get_mode pf st = Done m st1
    ∧ (m = FSMONITOR_MODE_DISABLED →
       fsm_settings__error_if_incompatible pf st = Done 0 st1)
    ∧ (m = FSMONITOR_MODE_INCOMPATIBLE →
       (∃ report,
          fsm_settings__error_if_incompatible pf st
            = Done 1 (with_error st1 report))
       ∨ (∃ code,
            fsm_settings__error_if_incompatible pf st
              = Bug msg_unhandled (FSMONITOR_REASON_UNLISTED code) st1)).
Proof.
  intros Hfresh Hrun.
  assert (Hinv : coherent_state (λ _, True) st).
  { apply (coherent_run_history _ pf h st0 st); try done.
    - unfold coherent_state. by rewrite Hfresh.
    - apply Forall_forall. intros x _. by destruct (step_call x). }
  apply (coherent_cached _ pf) in Hinv as [_ Hinv]; [|done].
  rewrite get_mode_run, error_if_incompatible_run. eexists _, _.
  split; [done|]. split.
  - intros Hm. rewrite Hm in Hinv. by destruct Hinv as [-> _].
  - intros Hm. rewrite Hm in Hinv.
    destruct (reason (cached pf st)); try done; cbn [error_report];
      by eauto.
Qed.

Lemma error_follows_mode_witness :
  let h := [mk_step (Some "/w") accepting_probe (Call_set_hook "/x/hook");
            mk_step (Some "/w") failing_probe Call_set_ipc] in
  ∃ m st1,
    run_history probe_accepts_platform h plain_context = Done tt st1
    ∧ fsm_settings__get_mode probe_accepts_platform st1 = Done m st1
    ∧ (m = FSMONITOR_MODE_INCOMPATIBLE →
       (∃ report,
          fsm_settings__error_if_incompatible probe_accepts_platform st1
            = Done 1 (with_error st1 report))
       ∨ (∃ code,
            fsm_settings__error_if_incompatible probe_accepts_platform st1
              = Bug msg_unhandled (FSMONITOR_REASON_UNLISTED code) st1)).
Proof.
  intros h.
  set (st := put_settings
               (mk_settings FSMONITOR_MODE_INCOMPATIBLE FSMONITOR_REASON_ERROR
                            (Some "/x/hook")) plain_context).
  assert (Hrun : run_history probe_accepts_platform h plain_context
                 = Done tt st) by (vm_compute; reflexivity).
  destruct (error_follows_mode probe_accepts_platform h plain_context st
              eq_refl Hrun) as (m & st1 & Hmode & _ & Herr).
  assert (st1 = st) as ->.
  { assert (Hst : fsm_settings__get_mode probe_accepts_platform st
                  = Done FSMONITOR_MODE_INCOMPATIBLE st)
      by (vm_compute; reflexivity).
    rewrite Hst in Hmode. by injection Hmode. }
  exists m, st. split; [exact Hrun|]. split; [exact Hmode|exact Herr].
Defined.
